(** * Risk-gated tool execution: the tools service and the tool-run routes

    A shallow embedding of
    - [ToolsService], the tools service
      (src/server/services/openai.ts, lines 857-1250);
    - the routes [/api/protected/tools/execute] and
      [/api/protected/tools/:id/approve] of [registerRoutes]
      (src/client/src/components/layout/navigation-rail.tsx, lines 541-610);
    - the tool-run operations of the storage (src/server/storage.ts, lines
      288-313) over the [tool_runs] table (src/unnamed/part_001, lines
      133-152), as a finite map from ids to rows, with the texts given for
      an id read as the database reads a [uuid];
    - [determineScanType] of the agent service, [approveToolExecution] of
      the chat store of the client (src/client/src/store/chat.ts) and the
      authentication middleware (src/server/middleware/auth.ts).

    Asynchronous code is written in a monad of computations that return,
    throw or never settle; the operating system, the clock and the id
    generator of the database are part of the state, as functions that
    say how they will answer. *)

From Stdlib Require Import ZArith String Ascii List Bool Lia.
From stdpp Require Import gmap strings list.

Local Open Scope string_scope.
Local Open Scope list_scope.

(* Let [simpl] compute the append of a literal. *)
Local Arguments String.append !_ _ / : simpl nomatch.

(** ** JavaScript values

    The request body is parsed by zod as [z.record(z.any())]: a map from
    keys to JSON values.  The code only ever observes the scalar fields
    [target], [scanType], [ports], [timeout], [domain], [recordType] and
    the three [include...] flags.  A number is carried by the text that
    JavaScript's ToString yields for it, which is all the code can observe
    of it besides its truthiness.  Nested arrays and objects are left out. *)

Module JS.

Inductive jsval : Type :=
  | JUndefined
  | JNull
  | JBool (b : bool)
  | JNum (repr : string)
  | JStr (s : string).

Global Instance jsval_eq_dec : EqDecision jsval.
Proof. solve_decision. Defined.

Global Instance jsval_inhabited : Inhabited jsval := populate JUndefined.

(** ToBoolean. *)
Definition truthy (v : jsval) : bool :=
  match v with
  | JUndefined | JNull => false
  | JBool b => b
  | JNum r => negb (String.eqb r "0" || String.eqb r "NaN")
  | JStr s => negb (String.eqb s "")
  end.

(** ToString, as applied by [RegExp.prototype.test] and template strings. *)
Definition js_to_string (v : jsval) : string :=
  match v with
  | JUndefined => "undefined"
  | JNull => "null"
  | JBool true => "true"
  | JBool false => "false"
  | JNum r => r
  | JStr s => s
  end.

(** [v === "lit"]. *)
Definition strict_eq_str (v : jsval) (lit : string) : bool :=
  match v with
  | JStr s => String.eqb s lit
  | _ => false
  end.

(** [a || b]. *)
Definition js_or (a b : jsval) : jsval := if truthy a then a else b.

(** A JSON object: a missing key reads as [undefined]. *)
Abbreviation jsobj := (gmap string jsval).

Definition get (o : jsobj) (k : string) : jsval := default JUndefined (o !! k).

Notation "o .[ k ]" := (get o k) (at level 1, left associativity, format "o .[ k ]").

End JS.

Import JS.

(** ** Regular expressions

    The fragment used by [allowedTargets]: literal characters, character
    classes, concatenation and alternation.  All three patterns start with
    [^] and have no end anchor, so [test] succeeds when some prefix of the
    subject matches. *)

Module Regex.

Inductive regex : Type :=
  | RChar (c : ascii)
  | RRange (lo hi : ascii)
  | ROneOf (cs : list ascii)
  | RSeq (r1 r2 : regex)
  | RAlt (r1 r2 : regex).

Fixpoint rmatch (r : regex) (s : string) (k : string → bool) : bool :=
  match r with
  | RChar c =>
      match s with
      | String c' s' => if Ascii.eqb c c' then k s' else false
      | EmptyString => false
      end
  | RRange lo hi =>
      match s with
      | String c' s' =>
          if (nat_of_ascii lo <=? nat_of_ascii c')%nat && (nat_of_ascii c' <=? nat_of_ascii hi)%nat
          then k s' else false
      | EmptyString => false
      end
  | ROneOf cs =>
      match s with
      | String c' s' => if existsb (Ascii.eqb c') cs then k s' else false
      | EmptyString => false
      end
  | RSeq r1 r2 => rmatch r1 s (fun s' => rmatch r2 s' k)
  | RAlt r1 r2 => rmatch r1 s k || rmatch r2 s k
  end.

(** [/^r/.test(s)] *)
Definition regex_test (r : regex) (s : string) : bool := rmatch r s (fun _ => true).

(** A non-empty literal as a sequence of characters. *)
Fixpoint RLit (c : ascii) (s : string) : regex :=
  match s with
  | EmptyString => RChar c
  | String c' s' => RSeq (RChar c) (RLit c' s')
  end.

End Regex.

Import Regex.

(** ** The tools service *)

Module ToolsService.

Inductive pattern : Type :=
  | PStr (s : string)
  | PRe (r : regex).

(** [/^192\.168\./] *)
Definition re_192_168 : regex := RLit "1" "92.168.".

(** [/^10\./] *)
Definition re_10 : regex := RLit "1" "0.".

(** [/^172\.(1[6-9]|2[0-9]|3[01])\./] *)
Definition re_172 : regex :=
  RSeq (RLit "1" "72.")
    (RSeq (RAlt (RSeq (RChar "1") (RRange "6" "9"))
             (RAlt (RSeq (RChar "2") (RRange "0" "9"))
                   (RSeq (RChar "3") (ROneOf ["0"; "1"]%char))))
          (RChar ".")).

Definition allowedTargets : list pattern :=
  [ PStr "127.0.0.1"; PStr "localhost"; PRe re_192_168; PRe re_10; PRe re_172 ].

(** The loop of [isTargetAllowed] over a list of patterns: a string
    pattern is compared with [===], a RegExp is tested (which converts the
    target to a string). *)
Fixpoint anyAllowed (ps : list pattern) (target : jsval) : bool :=
  match ps with
  | [] => false
  | PStr s :: ps' => if strict_eq_str target s then true else anyAllowed ps' target
  | PRe r :: ps' => if regex_test r (js_to_string target) then true else anyAllowed ps' target
  end.

Definition isTargetAllowed (target : jsval) : bool := anyAllowed allowedTargets target.

Inductive RiskLevel : Type := low | medium | high.

Global Instance RiskLevel_eq_dec : EqDecision RiskLevel.
Proof. solve_decision. Defined.

Definition assessNmapRisk (options : jsobj) : RiskLevel :=
  let risk := low in
  let risk :=
    if strict_eq_str options.["scanType"] "syn" || strict_eq_str options.["scanType"] "udp"
    then medium else risk in
  let risk := if strict_eq_str options.["scanType"] "service" then medium else risk in
  let risk := if negb (isTargetAllowed options.["target"]) then high else risk in
  risk.

Definition assessRiskLevel (toolName : string) (args : jsobj) : RiskLevel :=
  if String.eqb toolName "nmap" then assessNmapRisk args
  else if String.eqb toolName "domain_intel" then low
  else if String.eqb toolName "whois" then low
  else if String.eqb toolName "dns_lookup" then low
  else high.

Definition scanTypeFlag (scanType : jsval) : list jsval :=
  if strict_eq_str scanType "ping" then [JStr "-sn"]
  else if strict_eq_str scanType "tcp" then [JStr "-sT"]
  else if strict_eq_str scanType "syn" then [JStr "-sS"]
  else if strict_eq_str scanType "udp" then [JStr "-sU"]
  else if strict_eq_str scanType "service" then [JStr "-sV"]
  else [].

Definition buildNmapArgs (options : jsobj) : list jsval :=
  let args := [] in
  let args := args ++ [JStr "-T2"] in
  let args := args ++ [JStr "--max-rate"; JStr "100"] in
  let args := args ++ [JStr "--max-retries"; JStr "1"] in
  let args := args ++ scanTypeFlag options.["scanType"] in
  let args :=
    if truthy options.["ports"]
    then args ++ [JStr "-p"; options.["ports"]]
    else args ++ [JStr "--top-ports"; JStr "100"] in
  let args := args ++ [JStr "-oX"; JStr "-"] in
  let args := args ++ [options.["target"]] in
  args.

(** *** Thrown values, child processes and the world *)

(** What a [catch] clause receives: an [Error] with its message, or some
    other value. *)
Inductive thrown : Type :=
  | ErrorObj (message : string)
  | NonError.

(** [error instanceof Error ? error.message : fallback] *)
Definition message_or (fallback : string) (error : thrown) : string :=
  match error with
  | ErrorObj m => m
  | NonError => fallback
  end.

(** The events a spawned child delivers to the listeners installed by
    [executeCommand], in the order in which the runtime emits them.  The
    exit code of [close] is [null] when the child was ended by a signal,
    which is what the runtime does when the [timeout] given to [spawn]
    expires. *)
Inductive ChildEvent : Type :=
  | StdoutData (chunk : string)
  | StderrData (chunk : string)
  | Close (code : option Z)
  | ErrorEvent (e : thrown).

Record SpawnReq : Type := mkSpawnReq {
  sp_command : string;
  sp_args : list jsval;
  sp_timeout : jsval
}.

(** [spawn] either throws at once (arguments it refuses) or starts a child. *)
Inductive SpawnOutcome : Type :=
  | SpawnThrows (e : thrown)
  | Child (events : list ChildEvent).

Record CmdResult : Type := mkCmdResult {
  stdout : string;
  stderr : string;
  exitCode : Z
}.

(** The options object of [executeCommand]; both fields are optional. *)
Record CmdOptions : Type := mkCmdOptions {
  opt_timeout : jsval;
  opt_maxOutputSize : option N
}.

(** The promise built by [executeCommand] and the variables its listeners
    close over.  Only the first [resolve] or [reject] settles it. *)
Record Promise : Type := mkPromise {
  p_stdout : string;
  p_stderr : string;
  p_outputSize : N;
  p_kills : nat;
  p_settled : option (CmdResult + thrown)
}.

Definition settle (r : CmdResult + thrown) (p : Promise) : Promise :=
  match p_settled p with
  | Some _ => p
  | None => mkPromise (p_stdout p) (p_stderr p) (p_outputSize p) (p_kills p) (Some r)
  end.

Definition on_event (maxSize : N) (p : Promise) (ev : ChildEvent) : Promise :=
  match ev with
  | StdoutData data =>
      let outputSize := (p_outputSize p + N.of_nat (String.length data))%N in
      if (maxSize <? outputSize)%N then
        settle (inr (ErrorObj "Output size limit exceeded"))
          (mkPromise (p_stdout p) (p_stderr p) outputSize (S (p_kills p)) (p_settled p))
      else
        mkPromise (p_stdout p +:+ data) (p_stderr p) outputSize (p_kills p) (p_settled p)
  | StderrData data =>
      mkPromise (p_stdout p) (p_stderr p +:+ data) (p_outputSize p) (p_kills p) (p_settled p)
  | Close code =>
      settle (inl (mkCmdResult (p_stdout p) (p_stderr p) (default 0%Z code))) p
  | ErrorEvent e =>
      settle (inr e) p
  end.

Definition new_promise : Promise := mkPromise "" "" 0 0 None.

Definition run_listeners (maxSize : N) (events : list ChildEvent) : Promise :=
  fold_left (on_event maxSize) events new_promise.

(** [options.maxOutputSize || 1024 * 1024] *)
Definition maxSize_of (options : CmdOptions) : N :=
  match opt_maxOutputSize options with
  | Some n => if (n =? 0)%N then 1048576%N else n
  | None => 1048576%N
  end.

Inductive outcome (A : Type) : Type :=
  | Ret (a : A)
  | Throw (e : thrown)
  | Hang.

Arguments Ret {A} a.
Arguments Throw {A} e.
Arguments Hang {A}.

(** The outside of the service.  [clock] and [os] say how the world will
    answer: what the n-th reading of the clock gives, and what the n-th
    call of [spawn] does.  The other fields record what the service did:
    how often it read the clock, the calls of [spawn] in order, and the
    children (by the index of their call) on which [kill] was called. *)
Record World : Type := mkWorld {
  clock : nat → Z;
  os : nat → SpawnReq → SpawnOutcome;
  clockReads : nat;
  spawnLog : list SpawnReq;
  killLog : list nat
}.

(** Computations over a state [S] that return, throw, or never settle. *)
Definition ST (S A : Type) : Type := S → outcome A * S.

Definition ret {S A} (a : A) : ST S A := fun w => (Ret a, w).

Definition bind {S A B} (m : ST S A) (f : A → ST S B) : ST S B :=
  fun w =>
    match m w with
    | (Ret a, w') => f a w'
    | (Throw e, w') => (Throw e, w')
    | (Hang, w') => (Hang, w')
    end.

Definition throw {S A} (e : thrown) : ST S A := fun w => (Throw e, w).

(** [try { m } catch (error) { h error }]: a computation that never
    settles is not caught. *)
Definition try_catch {S A} (m : ST S A) (h : thrown → ST S A) : ST S A :=
  fun w =>
    match m w with
    | (Throw e, w') => h e w'
    | r => r
    end.

Abbreviation M := (ST World).

Notation "x <- m ;; k" := (bind m (fun x => k))
  (at level 100, m at next level, right associativity).

Definition tick (w : World) : World :=
  mkWorld (clock w) (os w) (S (clockReads w)) (spawnLog w) (killLog w).

(** [Date.now()] and [new Date()] *)
Definition now : M Z := fun w => (Ret (clock w (clockReads w)), tick w).

Definition executeCommand (command : string) (args : list jsval) (options : CmdOptions)
  : M CmdResult :=
  fun w =>
    let req := mkSpawnReq command args (js_or (opt_timeout options) (JNum "30000")) in
    let n := length (spawnLog w) in
    let w1 := mkWorld (clock w) (os w) (clockReads w) (spawnLog w ++ [req]) (killLog w) in
    match os w n req with
    | SpawnThrows e => (Throw e, w1)
    | Child events =>
        let p := run_listeners (maxSize_of options) events in
        let w2 := mkWorld (clock w) (os w) (clockReads w) (spawnLog w1)
                    (killLog w ++ repeat n (p_kills p)) in
        match p_settled p with
        | Some (inl r) => (Ret r, w2)
        | Some (inr e) => (Throw e, w2)
        | None => (Hang, w2)
        end
    end.

(** The report [parseNmapOutput] scrapes from the XML with regular
    expressions is a function of the XML text and of the time of parsing;
    it is carried by these two. *)
Record NmapReport : Type := mkNmapReport {
  nmap_timestamp : Z;
  nmap_xmlOutput : string
}.

Definition parseNmapOutput (xmlOutput : string) : M NmapReport :=
  t <- now ;; ret (mkNmapReport t xmlOutput).

(** [parseWhoisOutput] keeps the text in [raw]; its [parsed] mapping is a
    function of that text. *)
Record WhoisRecord : Type := mkWhoisRecord {
  whois_raw : string
}.

Definition parseWhoisOutput (whoisText : string) : WhoisRecord := mkWhoisRecord whoisText.

Definition executeNmap (options : jsobj) : M NmapReport :=
  if negb (isTargetAllowed options.["target"]) then
    throw (ErrorObj "Target not allowed. Only local/private networks are permitted.")
  else
    let args := buildNmapArgs options in
    result <- executeCommand "nmap" args
                (mkCmdOptions (js_or options.["timeout"] (JNum "30000")) (Some 1048576%N)) ;;
    parseNmapOutput (stdout result).

Definition executeWhois (domain : jsval) : M WhoisRecord :=
  result <- executeCommand "whois" [domain] (mkCmdOptions (JNum "10000") None) ;;
  ret (parseWhoisOutput (stdout result)).

(** White space of [trim], among the characters a [string] can hold. *)
Definition is_space (c : ascii) : bool :=
  let n := nat_of_ascii c in
  ((9 <=? n)%nat && (n <=? 13)%nat) || (n =? 32)%nat || (n =? 160)%nat.

Fixpoint trimStart (s : string) : string :=
  match s with
  | String c s' => if is_space c then trimStart s' else s
  | EmptyString => EmptyString
  end.

Definition reverse_string (s : string) : string :=
  string_of_list_ascii (rev (list_ascii_of_string s)).

Definition trim (s : string) : string :=
  reverse_string (trimStart (reverse_string (trimStart s))).

(** [s.split('\n')], with [line] the piece being read. *)
Fixpoint split_lines (s : string) (line : string) : list string :=
  match s with
  | EmptyString => [line]
  | String c s' =>
      if Ascii.eqb c "010" then line :: split_lines s' ""
      else split_lines s' (line +:+ String c "")
  end.

(** [stdout.trim().split('\n').filter(line => line.length > 0)] *)
Definition recordLines (stdout : string) : list string :=
  filter (fun line => (0 < String.length line)%nat) (split_lines (trim stdout) "").

Record DnsResult : Type := mkDnsResult {
  dns_domain : jsval;
  dns_recordType : jsval;
  dns_records : list string;
  dns_timestamp : Z
}.

Definition executeDNSLookup (domain recordType : jsval) : M DnsResult :=
  let recordType := match recordType with JUndefined => JStr "A" | v => v end in
  result <- executeCommand "dig" [JStr "+short"; domain; recordType]
              (mkCmdOptions (JNum "5000") None) ;;
  t <- now ;;
  ret (mkDnsResult domain recordType (recordLines (stdout result)) t).

Record SubdomainResult : Type := mkSubdomainResult {
  sub_domain : jsval;
  sub_subdomains : list (string * list string);
  sub_method : string;
  sub_timestamp : Z
}.

Definition commonSubdomains : list string :=
  [ "www"; "mail"; "ftp"; "admin"; "test"; "dev"; "staging"; "api";
    "blog"; "shop"; "support"; "portal"; "secure"; "vpn" ].

(** The loop of [enumerateSubdomains]; a failed lookup is skipped. *)
Fixpoint enumerateLoop (subs : list string) (domain : jsval)
    (found : list (string * list string)) : M (list (string * list string)) :=
  match subs with
  | [] => ret found
  | subdomain :: rest =>
      found' <- try_catch
                  (let fullDomain := subdomain +:+ "." +:+ js_to_string domain in
                   result <- executeDNSLookup (JStr fullDomain) (JStr "A") ;;
                   if (0 <? length (dns_records result))%nat
                   then ret (found ++ [(fullDomain, dns_records result)])
                   else ret found)
                  (fun _ => ret found) ;;
      enumerateLoop rest domain found'
  end.

Definition enumerateSubdomains (domain : jsval) : M SubdomainResult :=
  found <- enumerateLoop commonSubdomains domain [] ;;
  t <- now ;;
  ret (mkSubdomainResult domain found "passive_dns" t).

(** A field of the [results] object of [executeDomainIntel]: absent, an
    [{error}] object, or the value. *)
Inductive field (A : Type) : Type :=
  | Absent
  | Failed (error : string)
  | Present (a : A).

Arguments Absent {A}.
Arguments Failed {A} error.
Arguments Present {A} a.

Record DomainIntelResult : Type := mkDomainIntelResult {
  di_domain : jsval;
  di_timestamp : Z;
  di_dns : field DnsResult;
  di_whois : field WhoisRecord;
  di_subdomains : field SubdomainResult
}.

(** [if (cond) { try { x = await m } catch (error) { x = {error: ...} } }] *)
Definition guarded {A} (cond : bool) (fallback : string) (m : M A) : M (field A) :=
  if cond then
    try_catch (a <- m ;; ret (Present a))
              (fun error => ret (Failed (message_or fallback error)))
  else ret Absent.

Definition executeDomainIntel (options : jsobj) : M DomainIntelResult :=
  t <- now ;;
  dns <- guarded (negb (bool_decide (options.["includeDNS"] = JBool false)))
           "DNS lookup failed" (executeDNSLookup options.["domain"] (JStr "A")) ;;
  whois <- guarded (truthy options.["includeWhois"])
           "WHOIS lookup failed" (executeWhois options.["domain"]) ;;
  subdomains <- guarded (truthy options.["includeSubdomains"])
           "Subdomain enumeration failed" (enumerateSubdomains options.["domain"]) ;;
  ret (mkDomainIntelResult options.["domain"] t dns whois subdomains).

Inductive ToolData : Type :=
  | DNmap (r : NmapReport)
  | DDomainIntel (r : DomainIntelResult)
  | DWhois (r : WhoisRecord)
  | DDns (r : DnsResult).

(** The [result] field of the audit log: the tool's data, or [{error}]. *)
Inductive AuditResult : Type :=
  | AuditData (d : ToolData)
  | AuditError (error : string).

Record AuditLog : Type := mkAuditLog {
  al_command : string;
  al_arguments : jsobj;
  al_timestamp : Z;
  al_result : AuditResult
}.

Record ToolResult : Type := mkToolResult {
  success : bool;
  data : option ToolData;
  error : option string;
  tr_riskLevel : RiskLevel;
  executionTime : Z;
  tr_auditLog : AuditLog
}.

(** The [switch] of [executeTool]. *)
Definition dispatch (toolName : string) (args : jsobj) : M (ToolData * RiskLevel) :=
  if String.eqb toolName "nmap" then
    result <- executeNmap args ;; ret (DNmap result, assessNmapRisk args)
  else if String.eqb toolName "domain_intel" then
    result <- executeDomainIntel args ;; ret (DDomainIntel result, low)
  else if String.eqb toolName "whois" then
    result <- executeWhois args.["domain"] ;; ret (DWhois result, low)
  else if String.eqb toolName "dns_lookup" then
    result <- executeDNSLookup args.["domain"] args.["recordType"] ;; ret (DDns result, low)
  else throw (ErrorObj ("Unknown tool: " +:+ toolName)).

(** The result built in the [try] block of [executeTool]. *)
Definition succeeded (toolName : string) (args : jsobj) (startTime : Z)
    (r : ToolData * RiskLevel) : M ToolResult :=
  t <- now ;;
  let executionTime := (t - startTime)%Z in
  ts <- now ;;
  ret (mkToolResult true (Some (fst r)) None (snd r) executionTime
         (mkAuditLog toolName args ts (AuditData (fst r)))).

(** The result built in the [catch] block of [executeTool]. *)
Definition caught (toolName : string) (args : jsobj) (startTime : Z)
    (error : thrown) : M ToolResult :=
  t <- now ;;
  let executionTime := (t - startTime)%Z in
  ts <- now ;;
  ret (mkToolResult false None (Some (message_or "Unknown error" error)) high executionTime
         (mkAuditLog toolName args ts (AuditError (message_or "Unknown error" error)))).

Definition executeTool (toolName : string) (args : jsobj) : M ToolResult :=
  startTime <- now ;;
  try_catch
    (r <- dispatch toolName args ;; succeeded toolName args startTime r)
    (caught toolName args startTime).

End ToolsService.

Import ToolsService.

(** ** The tool-run ledger (server/storage.ts over the [tool_runs] table) *)

Module Storage.

Inductive Status : Type := pending | approved | running | completed | failed.

Global Instance Status_eq_dec : EqDecision Status.
Proof. solve_decision. Defined.

Record ToolRun : Type := mkToolRun {
  run_id : string;
  run_sessionId : string;
  run_messageId : option string;
  run_toolName : string;
  run_arguments : jsobj;
  run_result : option ToolResult;
  run_status : Status;
  run_riskLevel : RiskLevel;
  run_approvalRequired : bool;
  run_approvedBy : option string;
  run_approvedAt : option Z;
  run_executedAt : option Z;
  run_completedAt : option Z;
  run_errorMessage : option string;
  run_auditLog : option AuditLog;
  run_createdAt : option Z
}.

(** The value the execute route hands to [createToolRun], the one caller
    of it: of the columns the insert type of the schema admits, the six
    the route sets.  The other columns are in no insert of the program
    and take the defaults of the table. *)
Record InsertToolRun : Type := mkInsertToolRun {
  ins_sessionId : string;
  ins_toolName : string;
  ins_arguments : jsobj;
  ins_status : Status;
  ins_approvalRequired : bool;
  ins_riskLevel : RiskLevel
}.

(** The values the two routes hand to [updateToolRun], its only callers:
    of the columns of [Partial<ToolRun>], the ones a route sets or that
    describe the outcome of a run.  The id, the session, the message, the
    tool, its arguments and the time of creation are in no update of the
    program. *)
Record ToolRunUpdate : Type := mkToolRunUpdate {
  upd_status : option Status;
  upd_result : option ToolResult;
  upd_riskLevel : option RiskLevel;
  upd_approvalRequired : option bool;
  upd_approvedBy : option string;
  upd_approvedAt : option Z;
  upd_executedAt : option Z;
  upd_completedAt : option Z;
  upd_errorMessage : option string;
  upd_auditLog : option AuditLog
}.

Definition set_or {A} (new : option A) (old : A) : A := default old new.

Definition set_opt {A} (new : option A) (old : option A) : option A :=
  match new with Some a => Some a | None => old end.

Definition apply_update (u : ToolRunUpdate) (r : ToolRun) : ToolRun :=
  mkToolRun (run_id r) (run_sessionId r) (run_messageId r) (run_toolName r)
    (run_arguments r)
    (set_opt (upd_result u) (run_result r))
    (set_or (upd_status u) (run_status r))
    (set_or (upd_riskLevel u) (run_riskLevel r))
    (set_or (upd_approvalRequired u) (run_approvalRequired r))
    (set_opt (upd_approvedBy u) (run_approvedBy r))
    (set_opt (upd_approvedAt u) (run_approvedAt r))
    (set_opt (upd_executedAt u) (run_executedAt r))
    (set_opt (upd_completedAt u) (run_completedAt r))
    (set_opt (upd_errorMessage u) (run_errorMessage r))
    (set_opt (upd_auditLog u) (run_auditLog r))
    (run_createdAt r).

(** *** Values of the [uuid] columns

    [tool_runs.id] is a [uuid] column: the database generates the ids
    ([gen_random_uuid()]), hands them out in the canonical text form, and
    reads every text it is given for the column with PostgreSQL's [uuid_in]:
    16 bytes of two hexadecimal digits each, in either case, with an
    optional hyphen after each group of four digits and optional braces
    around the whole; any other text is an error of the query. *)

(** The digit of the lowest four bits of [n]. *)
Definition hexchar (n : N) : ascii :=
  match (n mod 16)%N with
  | 0%N => "0" | 1%N => "1" | 2%N => "2" | 3%N => "3"
  | 4%N => "4" | 5%N => "5" | 6%N => "6" | 7%N => "7"
  | 8%N => "8" | 9%N => "9" | 10%N => "a" | 11%N => "b"
  | 12%N => "c" | 13%N => "d" | 14%N => "e" | _ => "f"
  end%char.

(** The [k]-th hexadecimal digit of a 128-bit value, counted from the right. *)
Definition nibble (v : N) (k : nat) : ascii := hexchar (v / 16 ^ N.of_nat k).

(** The canonical form has a hyphen after the bytes 3, 5, 7 and 9. *)
Definition hyphen_after (i : nat) : bool :=
  (i =? 3)%nat || (i =? 5)%nat || (i =? 7)%nat || (i =? 9)%nat.

Fixpoint bytes_out (v : N) (todo i : nat) : string :=
  match todo with
  | 0 => ""
  | S todo' =>
      String (nibble v (31 - 2 * i)) (String (nibble v (30 - 2 * i))
        ((if hyphen_after i then "-" else "") +:+ bytes_out v todo' (S i)))
  end.

(** [uuid_out]: the text of a value, 8-4-4-4-12 digits in lower case. *)
Definition uuid_out (v : N) : string := bytes_out v 16 0.

(** A hexadecimal digit, in lower case; [None] for any other character. *)
Definition hex_lower (c : ascii) : option ascii :=
  let n := nat_of_ascii c in
  if ((48 <=? n)%nat && (n <=? 57)%nat) || ((97 <=? n)%nat && (n <=? 102)%nat) then Some c
  else if (65 <=? n)%nat && (n <=? 70)%nat then Some (ascii_of_nat (n + 32))
  else None.

Definition skip_hyphen (src : string) : string :=
  match src with
  | String c rest => if Ascii.eqb c "-" then rest else src
  | EmptyString => src
  end.

(** The loop of [uuid_in] over the 16 bytes: the canonical text of the
    bytes read and what is left of the source. *)
Fixpoint read_bytes (todo i : nat) (src : string) : option (string * string) :=
  match todo with
  | 0 => Some ("", src)
  | S todo' =>
      match src with
      | String a (String b rest) =>
          match hex_lower a, hex_lower b with
          | Some a', Some b' =>
              let rest := if Nat.odd i && (i <? 15)%nat then skip_hyphen rest else rest in
              match read_bytes todo' (S i) rest with
              | Some (out, tail) =>
                  Some (String a' (String b' ((if hyphen_after i then "-" else "") +:+ out)),
                        tail)
              | None => None
              end
          | _, _ => None
          end
      | _ => None
      end
  end.

(** [uuid_in]: the value a text stands for, by its canonical text, or
    [None] when the database refuses the text. *)
Definition uuid_in (src : string) : option string :=
  let braces := match src with String c _ => Ascii.eqb c "{" | EmptyString => false end in
  let src := match src with String c rest => if Ascii.eqb c "{" then rest else src
                         | EmptyString => src end in
  match read_bytes 16 0 src with
  | Some (out, tail) =>
      if String.eqb tail (if braces then "}" else "") then Some out else None
  | None => None
  end.

(** The error of a query that is given a text the column refuses. *)
Definition invalid_uuid (text : string) : thrown :=
  ErrorObj ("invalid input syntax for type uuid: " +:+ String (ascii_of_nat 34) text
            +:+ String (ascii_of_nat 34) "").

(** The server: the outside world, the values [gen_random_uuid()] will
    give, the two tables the routes touch, with [tool_runs] keyed by the
    canonical text of the id, and a journal of every write to [tool_runs]
    (the id written and the status the row has after the write), which is
    what an observer of the ledger sees over time. *)
Record Server : Type := mkServer {
  world : World;
  uuidGen : nat → N;
  uuidReads : nat;
  sessions : gset string;
  toolRuns : gmap string ToolRun;
  journal : list (string * Status)
}.

(** The id the database gives to the [n]-th row it creates. *)
Definition uuid (s : Server) (n : nat) : string := uuid_out (uuidGen s n).

Abbreviation RM := (ST Server).

Definition with_world (w : World) (s : Server) : Server :=
  mkServer w (uuidGen s) (uuidReads s) (sessions s) (toolRuns s) (journal s).

(** Run a computation of the tools service inside the server. *)
Definition lift {A} (m : M A) : RM A :=
  fun s => let '(r, w') := m (world s) in (r, with_world w' s).

(** The row [createToolRun] inserts. *)
Definition new_row (newId : string) (toolRun : InsertToolRun) (createdAt : Z) : ToolRun :=
  mkToolRun newId (ins_sessionId toolRun) None (ins_toolName toolRun)
    (ins_arguments toolRun) None (ins_status toolRun) (ins_riskLevel toolRun)
    (ins_approvalRequired toolRun) None None None None None None (Some createdAt).

(** A write of [row] under [id]. *)
Definition write_row (id : string) (row : ToolRun) (s : Server) : Server :=
  mkServer (world s) (uuidGen s) (uuidReads s) (sessions s)
    (<[id := row]> (toolRuns s)) (journal s ++ [(id, run_status row)]).

(** [db.insert(toolRuns).values(toolRun).returning()]: the row gets a new
    id and its defaults; the insert fails on a session that does not exist
    (foreign key) and on an id already in the table (primary key). *)
Definition createToolRun (toolRun : InsertToolRun) : RM ToolRun :=
  createdAt <- lift now ;;
  fun s =>
    let newId := uuid s (uuidReads s) in
    let s1 := mkServer (world s) (uuidGen s) (S (uuidReads s)) (sessions s) (toolRuns s)
                (journal s) in
    if negb (bool_decide (ins_sessionId toolRun ∈ sessions s)) then
      (Throw (ErrorObj "insert or update on table tool_runs violates foreign key constraint"), s1)
    else if bool_decide (is_Some (toolRuns s !! newId)) then
      (Throw (ErrorObj "duplicate key value violates unique constraint"), s1)
    else
      let newToolRun := new_row newId toolRun createdAt in
      (Ret newToolRun, write_row newId newToolRun s1).

(** [db.select().from(toolRuns).where(eq(toolRuns.id, id))]: the database
    reads [id] as a uuid, and the query fails when it is none. *)
Definition getToolRun (id : string) : RM (option ToolRun) :=
  fun s =>
    match uuid_in id with
    | None => (Throw (invalid_uuid id), s)
    | Some key => (Ret (toolRuns s !! key), s)
    end.

(** [db.update(toolRuns).set(updates).where(eq(toolRuns.id, id)).returning()];
    the query fails on a text that is no uuid, and with no such row nothing
    is written and the result is [undefined]. *)
Definition updateToolRun (id : string) (updates : ToolRunUpdate) : RM (option ToolRun) :=
  fun s =>
    match uuid_in id with
    | None => (Throw (invalid_uuid id), s)
    | Some key =>
        match toolRuns s !! key with
        | None => (Ret None, s)
        | Some r =>
            let toolRun := apply_update updates r in
            (Ret (Some toolRun), write_row key toolRun s)
        end
    end.

End Storage.

Import Storage.

(** ** The tool-run routes *)

Module Routes.

(** The body after [toolExecutionSchema.parse]. *)
Record ToolExecution : Type := mkToolExecution {
  te_toolName : string;
  te_arguments : jsobj;
  te_sessionId : string;
  te_requiresApproval : option bool
}.

(** [req.user] (by its id), and the body: the message of the [ZodError]
    when it does not parse. *)
Record ExecuteRequest : Type := mkExecuteRequest {
  ex_user : option string;
  ex_body : string + ToolExecution
}.

Record ApproveRequest : Type := mkApproveRequest {
  ap_user : option string;
  ap_id : string
}.

Inductive Body : Type :=
  | Message (message : string)
  | Executed (toolRun : ToolRun) (result : ToolResult)
  | AwaitingApproval (toolRun : ToolRun)
  | Approved (result : ToolResult).

Record Response : Type := mkResponse {
  res_status : nat;
  res_body : Body
}.

(** [data.requiresApproval] as a condition. *)
Definition requested (requiresApproval : option bool) : bool :=
  match requiresApproval with
  | Some b => b
  | None => false
  end.

(** The row the execute route asks [createToolRun] to insert. *)
Definition execute_insert (data : ToolExecution) : InsertToolRun :=
  mkInsertToolRun (te_sessionId data) (te_toolName data) (te_arguments data)
    (if requested (te_requiresApproval data) then pending else running)
    (requested (te_requiresApproval data))
    (assessRiskLevel (te_toolName data) (te_arguments data)).

(** The update of the execute route after the tool has run. *)
Definition execute_update (result : ToolResult) (executedAt completedAt : Z) : ToolRunUpdate :=
  mkToolRunUpdate (Some completed) (Some result) None None None None
    (Some executedAt) (Some completedAt) None None.

(** The update of the approve route after the tool has run. *)
Definition approve_update (result : ToolResult) (userId : string)
    (approvedAt executedAt completedAt : Z) : ToolRunUpdate :=
  mkToolRunUpdate (Some completed) (Some result) None None
    (Some userId) (Some approvedAt) (Some executedAt) (Some completedAt) None None.

(** [app.post("/api/protected/tools/execute")] *)
Definition executeRoute (req : ExecuteRequest) : RM Response :=
  try_catch
    (match ex_user req with
     | None => ret (mkResponse 401 (Message "User not authenticated"))
     | Some userId =>
         data <- match ex_body req with
                 | inl zodError => throw (ErrorObj zodError)
                 | inr data => ret data
                 end ;;
         toolRun <- createToolRun (execute_insert data) ;;
         if negb (requested (te_requiresApproval data)) then
           result <- lift (executeTool (te_toolName data) (te_arguments data)) ;;
           executedAt <- lift now ;;
           completedAt <- lift now ;;
           _ <- updateToolRun (run_id toolRun) (execute_update result executedAt completedAt) ;;
           ret (mkResponse 200 (Executed toolRun result))
         else
           ret (mkResponse 200 (AwaitingApproval toolRun))
     end)
    (fun error => ret (mkResponse 500 (Message (message_or "Tool execution failed" error)))).

(** [app.post("/api/protected/tools/:id/approve")] *)
Definition approveRoute (req : ApproveRequest) : RM Response :=
  try_catch
    (match ap_user req with
     | None => ret (mkResponse 401 (Message "User not authenticated"))
     | Some userId =>
         let toolRunId := ap_id req in
         toolRun <- getToolRun toolRunId ;;
         match toolRun with
         | None => ret (mkResponse 404 (Message "Tool run not found"))
         | Some toolRun =>
             result <- lift (executeTool (run_toolName toolRun) (run_arguments toolRun)) ;;
             approvedAt <- lift now ;;
             executedAt <- lift now ;;
             completedAt <- lift now ;;
             _ <- updateToolRun toolRunId
                    (approve_update result userId approvedAt executedAt completedAt) ;;
             ret (mkResponse 200 (Approved result))
         end
     end)
    (fun error => ret (mkResponse 500 (Message (message_or "Tool approval failed" error)))).

End Routes.

Import Routes.

(** ** Notions used to state the properties *)

Definition digit (n : nat) : ascii := ascii_of_nat (48 + n).

(** An octet in decimal, without leading zeros. *)
Definition octet (n : nat) : string :=
  if (n <? 10)%nat then String (digit n) ""
  else if (n <? 100)%nat then String (digit (n / 10)) (String (digit (n mod 10)) "")
  else String (digit (n / 100)) (String (digit (n / 10 mod 10)) (String (digit (n mod 10)) "")).

(** The IPv4 literal a.b.c.d. *)
Definition ipv4 (a b c d : nat) : string :=
  octet a +:+ "." +:+ octet b +:+ "." +:+ octet c +:+ "." +:+ octet d.

(** The address is 127.0.0.1 or lies in 10.0.0.0/8, 172.16.0.0/12 or
    192.168.0.0/16. *)
Definition in_allowed_ranges (a b c d : nat) : Prop :=
  (a = 127 ∧ b = 0 ∧ c = 0 ∧ d = 1) ∨ a = 10 ∨ (a = 172 ∧ (16 ≤ b ≤ 31)%nat) ∨ (a = 192 ∧ b = 168).

Definition in_private_range (a b : nat) : bool :=
  (a =? 10)%nat || ((a =? 172)%nat && (16 <=? b)%nat && (b <=? 31)%nat)
  || ((a =? 192)%nat && (b =? 168)%nat).

(** The chunks a trace writes to standard output and to standard error. *)
Fixpoint stdout_of (events : list ChildEvent) : string :=
  match events with
  | [] => ""
  | StdoutData data :: rest => data +:+ stdout_of rest
  | _ :: rest => stdout_of rest
  end.

Fixpoint stderr_of (events : list ChildEvent) : string :=
  match events with
  | [] => ""
  | StderrData data :: rest => data +:+ stderr_of rest
  | _ :: rest => stderr_of rest
  end.

Definition is_data (ev : ChildEvent) : bool :=
  match ev with
  | StdoutData _ | StderrData _ => true
  | _ => false
  end.

(** The child ends or fails: the event settles the promise. *)
Definition is_final (ev : ChildEvent) : bool :=
  match ev with
  | Close _ | ErrorEvent _ => true
  | _ => false
  end.

(** Every child the world starts ends or fails at some point. *)
Definition settling (w : World) : Prop :=
  ∀ n req events, os w n req = Child events → existsb is_final events = true.

(** A world whose children print some output and are then ended by a
    signal, as on expiry of the timeout given to [spawn]. *)
Definition timeout_world : World :=
  mkWorld (fun n => Z.of_nat n) (fun _ _ => Child [StdoutData "partial"; Close None]) 0 [] [].

(** A computation of the service leaves the world's answers as they are
    and, in a world whose children all end, does not stay pending. *)
Definition tame {A} (m : M A) : Prop :=
  ∀ w, os (snd (m w)) = os w ∧ (settling w → fst (m w) ≠ Hang).

(** A world in which no command can be started. *)
Definition broken_world : World :=
  mkWorld (fun n => Z.of_nat n) (fun _ _ => SpawnThrows (ErrorObj "spawn ENOENT")) 0 [] [].

(** The row the execute route creates for [data] in server [s], and the
    server after the insert. *)
Definition created_row (data : ToolExecution) (s : Server) : ToolRun :=
  new_row (uuid s (uuidReads s)) (execute_insert data) (clock (world s) (clockReads (world s))).

Definition after_create (data : ToolExecution) (s : Server) : Server :=
  write_row (uuid s (uuidReads s)) (created_row data s)
    (mkServer (tick (world s)) (uuidGen s) (S (uuidReads s)) (sessions s) (toolRuns s)
       (journal s)).

(** The server after the execute route has run the tool, which left the
    world as [w], and has recorded [result]. *)
Definition after_execute (data : ToolExecution) (s : Server) (result : ToolResult) (w : World)
  : Server :=
  write_row (uuid s (uuidReads s))
    (apply_update (execute_update result (clock w (clockReads w)) (clock w (S (clockReads w))))
       (created_row data s))
    (with_world (tick (tick w)) (after_create data s)).

(** The server after the approve route has run the tool of row [r] and has
    recorded [result]. *)
Definition after_approve (userId id : string) (r : ToolRun) (s : Server)
    (result : ToolResult) (w : World) : Server :=
  write_row id
    (apply_update
       (approve_update result userId (clock w (clockReads w)) (clock w (S (clockReads w)))
          (clock w (S (S (clockReads w)))))
       r)
    (with_world (tick (tick (tick w))) s).

(** The columns of a row that are set when it is created. *)
Definition same_fixed_columns (r r' : ToolRun) : Prop :=
  run_id r' = run_id r ∧ run_sessionId r' = run_sessionId r ∧
  run_toolName r' = run_toolName r ∧ run_arguments r' = run_arguments r ∧
  run_riskLevel r' = run_riskLevel r ∧ run_approvalRequired r' = run_approvalRequired r.

(** The statuses the routes write. *)
Definition written_status (entry : string * Status) : Prop :=
  snd entry = pending ∨ snd entry = running ∨ snd entry = completed.

(** *** A server to run the routes on *)

(** Every child prints one address and exits with code 0. *)
Definition demo_world : World :=
  mkWorld (fun n => Z.of_nat n)
    (fun _ _ => Child [StdoutData "93.184.216.34"; Close (Some 0%Z)]) 0 [] [].

(** The ids of the demo server: 9f1c2e4a-7b3d-4c5e-8a6f-0b1d2c3e4f50 and
    the values that follow it. *)
Definition demo_uuid (n : nat) : N :=
  (0x9f1c2e4a7b3d4c5e8a6f0b1d2c3e4f50 + N.of_nat n)%N.

(** One session, no tool run yet. *)
Definition demo_server : Server :=
  mkServer demo_world demo_uuid 0 {[ "session-1" ]} ∅ [].

(** A WHOIS lookup, a scan of a public address and a call of an unknown
    tool, none of them with a request for approval; and a DNS lookup for
    which the caller requests approval. *)
Definition whois_request : ExecuteRequest :=
  mkExecuteRequest (Some "user-1")
    (inr (mkToolExecution "whois" {[ "domain" := JStr "example.com" ]} "session-1" None)).

Definition public_scan_request : ExecuteRequest :=
  mkExecuteRequest (Some "user-1")
    (inr (mkToolExecution "nmap" {[ "target" := JStr "8.8.8.8"; "scanType" := JStr "tcp" ]}
            "session-1" None)).

Definition unknown_tool_request : ExecuteRequest :=
  mkExecuteRequest (Some "user-1")
    (inr (mkToolExecution "metasploit" ∅ "session-1" None)).

Definition gated_dns_request : ExecuteRequest :=
  mkExecuteRequest (Some "user-1")
    (inr (mkToolExecution "dns_lookup" {[ "domain" := JStr "example.com" ]} "session-1"
            (Some true))).

(** The id the demo server gives to the first run it creates. *)
Definition run_0 : string := "9f1c2e4a-7b3d-4c5e-8a6f-0b1d2c3e4f50".

Definition approve_request : ApproveRequest := mkApproveRequest (Some "admin-1") run_0.

(** The server after the WHOIS lookup ran, and after the gated DNS lookup
    was filed. *)
Definition server_after_whois : Server := snd (executeRoute whois_request demo_server).

Definition server_with_pending : Server := snd (executeRoute gated_dns_request demo_server).

Definition server_after_unknown_tool : Server :=
  snd (executeRoute unknown_tool_request demo_server).

Definition server_after_public_scan : Server :=
  snd (executeRoute public_scan_request demo_server).

(** ** Notions used to state further properties *)

(** A computation of the service never throws. *)
Definition never_throws {A} (m : M A) : Prop := ∀ w e, fst (m w) ≠ Throw e.

(** A computation of the service only adds calls of [spawn] that satisfy
    [P] to the log. *)
Definition spawns_only (P : SpawnReq → Prop) {A} (m : M A) : Prop :=
  ∀ w, ∃ new, spawnLog (snd (m w)) = spawnLog w ++ new ∧ Forall P new.

(** The calls of [spawn] the service is meant to make: the scanner on a
    target the guard accepts, with the argument list of [buildNmapArgs];
    a WHOIS lookup; a DNS lookup. *)
Definition permitted_spawn (req : SpawnReq) : Prop :=
  (sp_command req = "nmap" ∧
   ∃ options : jsobj, isTargetAllowed options.["target"] = true ∧
                      sp_args req = buildNmapArgs options) ∨
  (sp_command req = "whois" ∧ ∃ domain, sp_args req = [domain] ∧ sp_timeout req = JNum "10000") ∨
  (sp_command req = "dig" ∧
   ∃ domain recordType, sp_args req = [JStr "+short"; domain; recordType] ∧
                        sp_timeout req = JNum "5000").

(** The call of [spawn] of a DNS lookup of [name] for A records. *)
Definition dig_request (name : string) : SpawnReq :=
  mkSpawnReq "dig" [JStr "+short"; JStr name; JStr "A"] (JNum "5000").

(** The captured output is within the limit, and so is the output of a
    resolution already made. *)
Definition within_cap (maxSize : N) (p : Promise) : Prop :=
  (N.of_nat (String.length (p_stdout p)) <= p_outputSize p)%N ∧
  (N.of_nat (String.length (p_stdout p)) <= maxSize)%N ∧
  (∀ r, p_settled p = Some (inl r) → (N.of_nat (String.length (stdout r)) <= maxSize)%N).

(** A world whose children print two chunks of output and exit. *)
Definition flooding_world : World :=
  mkWorld (fun n => Z.of_nat n)
    (fun _ _ => Child [StdoutData "ok"; StdoutData "a long answer"; Close (Some 0%Z)]) 0 [] [].

(** A world whose children print a line and exit with code 2. *)
Definition failing_exit_world : World :=
  mkWorld (fun n => Z.of_nat n)
    (fun _ _ => Child [StdoutData "No match for domain"; Close (Some 2%Z)]) 0 [] [].

(** The arguments [buildNmapArgs] writes itself. *)
Definition fixed_nmap_args : list jsval :=
  [ JStr "-T2"; JStr "--max-rate"; JStr "100"; JStr "--max-retries"; JStr "1";
    JStr "-sn"; JStr "-sT"; JStr "-sS"; JStr "-sU"; JStr "-sV";
    JStr "-p"; JStr "--top-ports"; JStr "-oX"; JStr "-" ].

(** What a DNS lookup of [name] for A records gets when it is the [n]-th
    call of [spawn]: the lines the client printed, when the client stayed
    within the output limit and ended; nothing when it could not be
    started, failed or printed too much. *)
Definition lookup_answer (spawn : nat → SpawnReq → SpawnOutcome) (n : nat) (name : string)
  : option (list string) :=
  match spawn n (dig_request name) with
  | SpawnThrows _ => None
  | Child events =>
      match p_settled (run_listeners 1048576 events) with
      | Some (inl r) => Some (recordLines (stdout r))
      | _ => None
      end
  end.

(** The candidates that answer with at least one record, with their
    records, when their lookups are the calls of [spawn] from the [n]-th
    on. *)
Fixpoint answering (spawn : nat → SpawnReq → SpawnOutcome) (n : nat) (domain : jsval)
    (subs : list string) : list (string * list string) :=
  match subs with
  | [] => []
  | sub :: rest =>
      let name := sub +:+ "." +:+ js_to_string domain in
      match lookup_answer spawn n name with
      | Some (record :: records) =>
          (name, record :: records) :: answering spawn (S n) domain rest
      | _ => answering spawn (S n) domain rest
      end
  end.

(** ** The agent service: reading a scan type off a message
    (src/server/services/openai.ts, lines 813-819) *)

(** [s.includes(sub)] *)
Fixpoint includes (s sub : string) : bool :=
  String.prefix sub s ||
  match s with
  | EmptyString => false
  | String _ s' => includes s' sub
  end.

Definition determineScanType (message : string) : string :=
  if includes message "service" || includes message "version" then "service"
  else if includes message "syn" then "syn"
  else if includes message "udp" then "udp"
  else if includes message "ping" then "ping"
  else "tcp".

(** The text has white space only. *)
Definition blank (s : string) : Prop := Forall (fun c => is_space c = true) (list_ascii_of_string s).

(** The text has no line feed. *)
Definition one_line (s : string) : Prop := ¬ In "010"%char (list_ascii_of_string s).

(** ** The parsed part of a WHOIS record
    (src/server/services/openai.ts, lines 1196-1216) *)

(** [toLowerCase] on one character of a [string]. *)
Definition lower (c : ascii) : ascii :=
  let n := nat_of_ascii c in
  if ((65 <=? n)%nat && (n <=? 90)%nat) || ((192 <=? n)%nat && (n <=? 214)%nat)
     || ((216 <=? n)%nat && (n <=? 222)%nat)
  then ascii_of_nat (n + 32) else c.

Fixpoint toLowerCase (s : string) : string :=
  match s with
  | EmptyString => EmptyString
  | String c s' => String (lower c) (toLowerCase s')
  end.

(** The line before and after its first colon: [line.substring(0, i)] and
    [line.substring(i + 1)] for [i = line.indexOf(':')], when there is one. *)
Fixpoint cut_at_colon (line : string) : option (string * string) :=
  match line with
  | EmptyString => None
  | String c rest =>
      if Ascii.eqb c ":" then Some (EmptyString, rest)
      else match cut_at_colon rest with
           | Some (before, after) => Some (String c before, after)
           | None => None
           end
  end.

(** The key and the value a line contributes, if any. *)
Definition whois_entry (line : string) : option (string * string) :=
  match cut_at_colon line with
  | Some (before, after) =>
      if (0 <? String.length before)%nat then
        let key := toLowerCase (trim before) in
        let value := trim after in
        if negb (String.eqb value "") then Some (key, value) else None
      else None
  | None => None
  end.

(** [parsed[key] = value] on an object literal: assigning a string to
    [__proto__] changes nothing. *)
Definition assign (parsed : gmap string string) (key value : string) : gmap string string :=
  if String.eqb key "__proto__" then parsed else <[key := value]> parsed.

Definition whois_line (parsed : gmap string string) (line : string) : gmap string string :=
  match whois_entry line with
  | Some (key, value) => assign parsed key value
  | None => parsed
  end.

(** The [parsed] field of [parseWhoisOutput(whoisText)]. *)
Definition whoisParsed (whoisText : string) : gmap string string :=
  fold_left whois_line (split_lines whoisText "") ∅.

(** Every row of the ledger is stored under its own id. *)
Definition ledger_keyed (s : Server) : Prop :=
  ∀ id r, toolRuns s !! id = Some r → run_id r = id.

(** ** The chat store of the client: approval of a tool run
    (src/client/src/store/chat.ts, lines 159-193) *)

Module ChatStore.

Inductive CallStatus : Type := call_pending | call_approved | call_executed | call_failed.

Global Instance CallStatus_eq_dec : EqDecision CallStatus.
Proof. solve_decision. Defined.

(** A tool call shown with a message; [R] is the type of results. *)
Record ToolCall (R : Type) : Type := mkToolCall {
  tc_toolName : string;
  tc_arguments : jsobj;
  tc_status : CallStatus;
  tc_riskLevel : RiskLevel;
  tc_result : option R;
  tc_error : option string
}.

Arguments mkToolCall {R}.
Arguments tc_toolName {R}.
Arguments tc_arguments {R}.
Arguments tc_status {R}.
Arguments tc_riskLevel {R}.
Arguments tc_result {R}.
Arguments tc_error {R}.

(** A message; [Meta] is the type of its metadata. *)
Record Message (Meta R : Type) : Type := mkMessage {
  msg_id : string;
  msg_role : string;
  msg_content : string;
  msg_createdAt : string;
  msg_metadata : option Meta;
  msg_toolCalls : option (list (ToolCall R))
}.

Arguments mkMessage {Meta R}.
Arguments msg_id {Meta R}.
Arguments msg_role {Meta R}.
Arguments msg_content {Meta R}.
Arguments msg_createdAt {Meta R}.
Arguments msg_metadata {Meta R}.
Arguments msg_toolCalls {Meta R}.

(** The store; [Plan] is the type of plans. *)
Record ChatState (Meta R Plan : Type) : Type := mkChatState {
  messages : list (Message Meta R);
  currentSessionId : option string;
  currentPlan : option Plan;
  isLoading : bool;
  error : option string
}.

Arguments mkChatState {Meta R Plan}.
Arguments messages {Meta R Plan}.
Arguments currentSessionId {Meta R Plan}.
Arguments currentPlan {Meta R Plan}.
Arguments isLoading {Meta R Plan}.
Arguments error {Meta R Plan}.

(** What reading [response.data.result] does, for the value [api.post]
    has returned: when that value or its [data] property is [undefined] or
    [null], the reading throws a [TypeError], with the message the engine
    gives it; otherwise it gives the [result] property, [undefined] when
    there is none. *)
Inductive Reading (R : Type) : Type :=
  | ReadThrows (message : string)
  | ReadGives (result : option R).

Arguments ReadThrows {R} message.
Arguments ReadGives {R} result.

(** [list.map(f)] for a callback that may throw: the first throw ends it. *)
Fixpoint mapE {A B} (f : A → thrown + B) (l : list A) : thrown + list B :=
  match l with
  | [] => inr []
  | a :: l' =>
      match f a with
      | inl e => inl e
      | inr b =>
          match mapE f l' with
          | inl e => inl e
          | inr bs => inr (b :: bs)
          end
      end
  end.

(** The inner [map] of the update: for a pending call [response.data.result]
    is read, and the call becomes executed with what was read; any other
    call is returned as it is, and nothing is read. *)
Definition updateCall {R} (response : Reading R) (tool : ToolCall R) : thrown + ToolCall R :=
  if decide (tc_status tool = call_pending) then
    match response with
    | ReadThrows message => inl (ErrorObj message)
    | ReadGives result =>
        inr (mkToolCall (tc_toolName tool) (tc_arguments tool) call_executed
               (tc_riskLevel tool) result (tc_error tool))
    end
  else inr tool.

(** The outer [map] of the update. *)
Definition updateMessage {Meta R} (response : Reading R) (message : Message Meta R)
  : thrown + Message Meta R :=
  match msg_toolCalls message with
  | Some toolCalls =>
      match mapE (updateCall response) toolCalls with
      | inl e => inl e
      | inr updatedToolCalls =>
          inr (mkMessage (msg_id message) (msg_role message) (msg_content message)
                 (msg_createdAt message) (msg_metadata message) (Some updatedToolCalls))
      end
  | None => inr message
  end.

(** [approveToolExecution(toolRunId)], given how [api.post] ends: with an
    error, or with a value, of which the action reads [data.result].  A
    throw inside the function given to [set] leaves the state to the
    [catch] block, as a throw of the request does.  The outcome is [None]
    when the action returns and the value thrown when it throws. *)
Definition approveToolExecution {Meta R Plan} (toolRunId : string)
    (post : string → thrown + Reading R) (state : ChatState Meta R Plan)
  : option thrown * ChatState Meta R Plan :=
  let state1 :=
    mkChatState (messages state) (currentSessionId state) (currentPlan state) true None in
  let caught err :=
    (Some err,
     mkChatState (messages state1) (currentSessionId state1) (currentPlan state1) false
       (Some (message_or "Failed to approve tool execution" err))) in
  match post ("/api/protected/tools/" +:+ toolRunId +:+ "/approve") with
  | inr response =>
      match mapE (updateMessage response) (messages state1) with
      | inr updatedMessages =>
          (None,
           mkChatState updatedMessages (currentSessionId state1) (currentPlan state1) false
             (error state1))
      | inl err => caught err
      end
  | inl err => caught err
  end.

(** [api.post] on the approve route, as the action sees it, given the
    answer of the route: a status outside 200-299 is thrown as an error,
    with the text of the body as its message ([errorText]); a body with a
    status inside is returned as it is parsed, and no body the route sends
    has a [data] property, so that reading [data.result] of it throws the
    [TypeError] of the engine ([typeError]). *)
Definition post_approve (typeError : string) (errorText : Response → string)
    (answer : Response) : thrown + Reading ToolResult :=
  if (200 <=? res_status answer)%nat && (res_status answer <=? 299)%nat
  then inr (ReadThrows typeError)
  else inl (ErrorObj (errorText answer)).

(** The tool calls of all messages, in order. *)
Definition all_calls {Meta R} (ms : list (Message Meta R)) : list (ToolCall R) :=
  concat (map (fun m => default [] (msg_toolCalls m)) ms).

End ChatStore.

(** How an approval changes one tool call of the chat store: a pending
    call becomes executed with [result] and is otherwise as it was; any
    other call stays. *)
Definition call_marked {R} (result : option R) (old new : ChatStore.ToolCall R) : Prop :=
  if decide (ChatStore.tc_status old = ChatStore.call_pending) then
    ChatStore.tc_status new = ChatStore.call_executed ∧ ChatStore.tc_result new = result ∧
    ChatStore.tc_toolName new = ChatStore.tc_toolName old ∧
    ChatStore.tc_arguments new = ChatStore.tc_arguments old ∧
    ChatStore.tc_riskLevel new = ChatStore.tc_riskLevel old ∧
    ChatStore.tc_error new = ChatStore.tc_error old
  else new = old.

(** The call is pending. *)
Definition is_pending {R} (tool : ChatStore.ToolCall R) : bool :=
  bool_decide (ChatStore.tc_status tool = ChatStore.call_pending).

(** A pending call marked as executed with [result]; any other call. *)
Definition markCall {R} (result : option R) (tool : ChatStore.ToolCall R)
  : ChatStore.ToolCall R :=
  if is_pending tool then
    ChatStore.mkToolCall (ChatStore.tc_toolName tool) (ChatStore.tc_arguments tool)
      ChatStore.call_executed (ChatStore.tc_riskLevel tool) result (ChatStore.tc_error tool)
  else tool.

Definition markMessage {Meta R} (result : option R) (message : ChatStore.Message Meta R)
  : ChatStore.Message Meta R :=
  match ChatStore.msg_toolCalls message with
  | Some toolCalls =>
      ChatStore.mkMessage (ChatStore.msg_id message) (ChatStore.msg_role message)
        (ChatStore.msg_content message) (ChatStore.msg_createdAt message)
        (ChatStore.msg_metadata message) (Some (map (markCall result) toolCalls))
  | None => message
  end.

(** The default parameter [recordType = "A"] of [executeDNSLookup]. *)
Definition recordTypeOrA (recordType : jsval) : jsval :=
  match recordType with JUndefined => JStr "A" | v => v end.

(** A world whose DNS client prints nothing and exits with code 0, and
    whose other children exit with code 1 after one line. *)
Definition silent_dns_world : World :=
  mkWorld (fun n => Z.of_nat n)
    (fun _ req => if String.eqb (sp_command req) "dig"
                  then Child [Close (Some 0%Z)]
                  else Child [StdoutData "No match for domain"; Close (Some 1%Z)]) 0 [] [].

(** A world in which the DNS client finds an address for
    www.example.com and nothing for any other name. *)
Definition sparse_dns_world : World :=
  mkWorld (fun n => Z.of_nat n)
    (fun _ req =>
       if bool_decide (sp_args req = [JStr "+short"; JStr "www.example.com"; JStr "A"])
       then Child [StdoutData "93.184.216.34"; Close (Some 0%Z)]
       else Child [Close (Some 0%Z)]) 0 [] [].

(** A chat with one message that shows two tool calls, one pending and one
    failed. *)
Definition demo_chat : ChatStore.ChatState unit string unit :=
  ChatStore.mkChatState
    [ ChatStore.mkMessage "m1" "assistant" "I will run two tools." "2024-01-01" None
        (Some [ ChatStore.mkToolCall "whois" ∅ ChatStore.call_pending low None None;
                ChatStore.mkToolCall "nmap" ∅ ChatStore.call_failed high None (Some "refused") ]) ]
    (Some "session-1") None false (Some "old error").

(** A chat that shows one pending call, and what the approve route
    answers when the completed WHOIS run of the demo server is approved. *)
Definition pending_chat : ChatStore.ChatState unit ToolResult unit :=
  ChatStore.mkChatState
    [ ChatStore.mkMessage "m1" "assistant" "One lookup." "2024-01-01" None
        (Some [ ChatStore.mkToolCall "whois" ∅ ChatStore.call_pending low None None ]) ]
    (Some "session-1") None false None.

Definition demo_answer : Response :=
  match fst (approveRoute approve_request server_after_whois) with
  | Ret answer => answer
  | _ => mkResponse 500 (Message "")
  end.

(** ** The authentication middleware in front of the protected routes
    (src/server/middleware/auth.ts, lines 7-40) *)

Module Auth.

(** What the middleware does with a request: it answers it, or it sets
    [req.user] and calls [next()]. *)
Inductive AuthResult (User : Type) : Type :=
  | Answered (status : nat) (message : string)
  | Next (user : User).

Arguments Answered {User} status message.
Arguments Next {User} user.

(** [authMiddleware], given the [authorization] header, what
    [jwt.verify(token, JWT_SECRET)] does with a token (it throws, or gives
    the payload) and what [storage.getUser] does with an id. *)
Definition authMiddleware {User : Type} (authorization : option string)
    (verify : string → thrown + jsobj) (getUser : jsval → thrown + option User)
  : AuthResult User :=
  match authorization with
  | None => Answered 401 "No token provided"
  | Some authHeader =>
      if negb (String.prefix "Bearer " authHeader) then Answered 401 "No token provided"
      else
        let token := String.substring 7 (String.length authHeader - 7) authHeader in
        match verify token with
        | inl _ => Answered 401 "Invalid token"
        | inr decoded =>
            if negb (truthy decoded.["userId"]) then Answered 401 "Invalid token payload"
            else
              match getUser decoded.["userId"] with
              | inl _ => Answered 401 "Invalid token"
              | inr None => Answered 401 "User not found"
              | inr (Some user) => Next user
              end
        end
  end.

End Auth.

(** ** Properties of the target policy guard *)

Lemma string_app_assoc (s1 s2 s3 : string) : (s1 +:+ s2) +:+ s3 = s1 +:+ (s2 +:+ s3).
Proof. induction s1 as [|c s1 IH]; simpl; [reflexivity | f_equal; exact IH]. Qed.

Lemma forall_below (n : nat) (P : nat → bool) :
  forallb P (seq 0 n) = true → ∀ a, (a < n)%nat → P a = true.
Proof.
  intros H a Ha. rewrite forallb_forall in H. apply H. apply in_seq. lia.
Qed.

(** On the first two octets of a literal, away from 127.0: the guard is
    decided by the private ranges, whatever follows. *)
Lemma guard_on_prefix (rest : string) :
  forallb (fun a => forallb (fun b =>
    implb (negb ((a =? 127)%nat && (b =? 0)%nat))
      (Bool.eqb (isTargetAllowed (JStr (octet a +:+ "." +:+ octet b +:+ "." +:+ rest)))
                (in_private_range a b)))
    (seq 0 256)) (seq 0 256) = true.
Proof. vm_compute. reflexivity. Qed.

Lemma guard_on_loopback (rest : string) :
  isTargetAllowed (JStr (octet 127 +:+ "." +:+ octet 0 +:+ "." +:+ rest)) = String.eqb rest "0.1".
Proof.
  unfold isTargetAllowed. simpl. unfold regex_test. simpl.
  destruct (String.eqb rest "0.1"); reflexivity.
Qed.

Lemma last_octets_of_loopback :
  forallb (fun c => forallb (fun d =>
    Bool.eqb (String.eqb (octet c +:+ "." +:+ octet d) "0.1") ((c =? 0)%nat && (d =? 1)%nat))
    (seq 0 256)) (seq 0 256) = true.
Proof. vm_compute. reflexivity. Qed.

(** The guard on a text, pattern by pattern. *)
Lemma guard_by_patterns (t : string) :
  isTargetAllowed (JStr t) = true ↔
  t = "127.0.0.1" ∨ t = "localhost" ∨
  regex_test re_192_168 t = true ∨ regex_test re_10 t = true ∨ regex_test re_172 t = true.
Proof.
  unfold isTargetAllowed, allowedTargets, anyAllowed, strict_eq_str, js_to_string.
  destruct (String.eqb_spec t "127.0.0.1") as [-> | H1]; [tauto |].
  destruct (String.eqb_spec t "localhost") as [-> | H2]; [tauto |].
  destruct (regex_test re_192_168 t); [tauto |].
  destruct (regex_test re_10 t); [tauto |].
  destruct (regex_test re_172 t); [tauto |].
  split; [discriminate |]. intros [? | [? | [? | [? | ?]]]]; congruence.
Qed.

(** Read one literal character of the pattern off the text. *)
Ltac eat t :=
  let c := fresh "c" in
  destruct t as [|c t]; [discriminate |];
  match goal with
  | |- context [Ascii.eqb ?a c] => destruct (Ascii.eqb_spec a c) as [<- | ?]; [| discriminate]
  end.

Lemma re_10_prefix (t : string) : regex_test re_10 t = true ↔ ∃ rest, t = "10." +:+ rest.
Proof.
  split; [| intros [rest ->]; reflexivity].
  unfold regex_test, re_10. cbn [RLit rmatch].
  eat t. eat t. eat t. intros _. now exists t.
Qed.

Lemma re_192_168_prefix (t : string) :
  regex_test re_192_168 t = true ↔ ∃ rest, t = "192.168." +:+ rest.
Proof.
  split; [| intros [rest ->]; reflexivity].
  unfold regex_test, re_192_168. cbn [RLit rmatch].
  do 8 (eat t). intros _. now exists t.
Qed.

(** A character between two digits is a digit. *)
Lemma digit_between (c : ascii) (lo hi : nat) :
  (48 + lo <=? nat_of_ascii c)%nat && (nat_of_ascii c <=? 48 + hi)%nat = true →
  ∃ n, (lo ≤ n ≤ hi)%nat ∧ c = digit n.
Proof.
  intros [Hlo Hhi]%andb_true_iff. apply Nat.leb_le in Hlo, Hhi.
  exists (nat_of_ascii c - 48)%nat. split; [lia |].
  unfold digit. replace (48 + (nat_of_ascii c - 48))%nat with (nat_of_ascii c) by lia.
  now rewrite ascii_nat_embedding.
Qed.

Lemma re_172_prefix (t : string) :
  regex_test re_172 t = true ↔
  ∃ b rest, (16 ≤ b ≤ 31)%nat ∧ t = "172." +:+ octet b +:+ "." +:+ rest.
Proof.
  split.
  - unfold regex_test, re_172. cbn [RLit rmatch].
    do 4 (eat t). destruct t as [|c1 [|c2 t]]; [discriminate | |].
    { destruct (Ascii.eqb "1" c1), (Ascii.eqb "2" c1), (Ascii.eqb "3" c1); cbn; discriminate. }
    destruct (Ascii.eqb_spec "1" c1) as [<- | ?];
      [| destruct (Ascii.eqb_spec "2" c1) as [<- | ?];
         [| destruct (Ascii.eqb_spec "3" c1) as [<- | ?]; [| cbn; discriminate]]];
      try change (Ascii.eqb "2" "1") with false; try change (Ascii.eqb "3" "1") with false;
      try change (Ascii.eqb "3" "2") with false;
      cbv iota; cbn [orb]; rewrite ?orb_false_r.
    + change (nat_of_ascii "6") with (48 + 6)%nat. change (nat_of_ascii "9") with (48 + 9)%nat.
      destruct ((48 + 6 <=? nat_of_ascii c2)%nat && (nat_of_ascii c2 <=? 48 + 9)%nat)
        eqn:Hd; [| discriminate].
      apply digit_between in Hd as (d & Hd' & ->). eat t. intros _.
      exists (10 + d)%nat, t. split; [lia |].
      assert (d = 6 ∨ d = 7 ∨ d = 8 ∨ d = 9)%nat as Hc by lia.
      destruct Hc as [-> | [-> | [-> | ->]]]; reflexivity.
    + change (nat_of_ascii "0") with (48 + 0)%nat. change (nat_of_ascii "9") with (48 + 9)%nat.
      destruct ((48 + 0 <=? nat_of_ascii c2)%nat && (nat_of_ascii c2 <=? 48 + 9)%nat)
        eqn:Hd; [| discriminate].
      apply digit_between in Hd as (d & Hd' & ->). eat t. intros _.
      exists (20 + d)%nat, t. split; [lia |].
      assert (d = 0 ∨ d = 1 ∨ d = 2 ∨ d = 3 ∨ d = 4 ∨ d = 5 ∨ d = 6 ∨ d = 7 ∨ d = 8 ∨ d = 9)%nat
        as Hc by lia.
      repeat (destruct Hc as [-> | Hc]; [reflexivity |]). subst. reflexivity.
    + cbn [existsb]. rewrite orb_false_r.
      destruct (Ascii.eqb_spec c2 "0") as [-> | ?];
        [| destruct (Ascii.eqb_spec c2 "1") as [-> | ?]; [| discriminate]];
        cbn [orb]; eat t; intros _.
      * exists 30, t. split; [lia | reflexivity].
      * exists 31, t. split; [lia | reflexivity].
  - intros (b & rest & Hb & ->).
    assert (b = 16 ∨ b = 17 ∨ b = 18 ∨ b = 19 ∨ b = 20 ∨ b = 21 ∨ b = 22 ∨ b = 23 ∨
            b = 24 ∨ b = 25 ∨ b = 26 ∨ b = 27 ∨ b = 28 ∨ b = 29 ∨ b = 30 ∨ b = 31)%nat
      as Hc by lia.
    repeat (destruct Hc as [-> | Hc]; [reflexivity |]). subst. reflexivity.
Qed.

(** C5 fails in the code.  The guard accepts a text exactly when it is
    127.0.0.1 or localhost or begins with [192.168.], with [10.] or with
    [172.], a number from 16 to 31 and a dot: what follows that beginning
    is not looked at.  So the guard accepts texts that are no address of
    a private range, such as the whole address space [10.0.0.0/0] and the
    host name [10.evil.example.com], and the scanner is started on them. *)
Theorem isTargetAllowed_accepts_by_prefix :
  (∀ t : string,
     isTargetAllowed (JStr t) = true ↔
     t = "127.0.0.1" ∨ t = "localhost" ∨
     (∃ rest, t = "192.168." +:+ rest) ∨ (∃ rest, t = "10." +:+ rest) ∨
     (∃ b rest, (16 ≤ b ≤ 31)%nat ∧ t = "172." +:+ octet b +:+ "." +:+ rest)) ∧
  isTargetAllowed (JStr "10.0.0.0/0") = true ∧
  isTargetAllowed (JStr "10.evil.example.com") = true ∧
  spawnLog (snd (executeTool "nmap" {[ "target" := JStr "10.0.0.0/0" ]} demo_world)) =
    [mkSpawnReq "nmap"
       [JStr "-T2"; JStr "--max-rate"; JStr "100"; JStr "--max-retries"; JStr "1";
        JStr "--top-ports"; JStr "100"; JStr "-oX"; JStr "-"; JStr "10.0.0.0/0"]
       (JNum "30000")].
Proof.
  split; [| repeat split].
  intros t. rewrite guard_by_patterns, re_192_168_prefix, re_10_prefix, re_172_prefix.
  reflexivity.
Qed.

(** ** Properties of the scanner's argument list *)

(** C8, as the code has it.  Polite timing, the rate limit and the retry
    limit open every argument list whatever the caller sends.  The port
    budget is capped at the top 100 ports only when the caller sends no
    ports (or an empty text); ports the caller sends are handed to the
    scanner as they are. *)
Theorem buildNmapArgs_restrictions (options : jsobj) :
  (∃ tail, buildNmapArgs options =
     JStr "-T2" :: JStr "--max-rate" :: JStr "100" :: JStr "--max-retries" :: JStr "1" :: tail) ∧
  (truthy options.["ports"] = false →
     buildNmapArgs options =
       [JStr "-T2"; JStr "--max-rate"; JStr "100"; JStr "--max-retries"; JStr "1"]
       ++ scanTypeFlag options.["scanType"]
       ++ [JStr "--top-ports"; JStr "100"; JStr "-oX"; JStr "-"; options.["target"]]) ∧
  (truthy options.["ports"] = true →
     buildNmapArgs options =
       [JStr "-T2"; JStr "--max-rate"; JStr "100"; JStr "--max-retries"; JStr "1"]
       ++ scanTypeFlag options.["scanType"]
       ++ [JStr "-p"; options.["ports"]; JStr "-oX"; JStr "-"; options.["target"]]).
Proof.
  unfold buildNmapArgs. repeat split.
  - destruct (truthy options.["ports"]); simpl; eauto.
  - intros ->. simpl. now rewrite <- !app_assoc.
  - intros ->. simpl. now rewrite <- !app_assoc.
Qed.

(** An instance of C8 as amended: a ping scan without ports. *)
Lemma buildNmapArgs_restrictions_witness :
  buildNmapArgs {[ "target" := JStr "192.168.1.10"; "scanType" := JStr "ping" ]} =
    [JStr "-T2"; JStr "--max-rate"; JStr "100"; JStr "--max-retries"; JStr "1"]
    ++ scanTypeFlag (JStr "ping")
    ++ [JStr "--top-ports"; JStr "100"; JStr "-oX"; JStr "-"; JStr "192.168.1.10"].
Proof.
  exact (proj1 (proj2 (buildNmapArgs_restrictions
    {[ "target" := JStr "192.168.1.10"; "scanType" := JStr "ping" ]})) eq_refl).
Defined.

(** C8 fails as stated: a caller who sends [ports = "1-65535"] gets a scan
    of the full port range, with no cap on the ports. *)
Lemma buildNmapArgs_full_range :
  buildNmapArgs {[ "target" := JStr "192.168.1.10"; "scanType" := JStr "tcp";
                   "ports" := JStr "1-65535" ]} =
    [JStr "-T2"; JStr "--max-rate"; JStr "100"; JStr "--max-retries"; JStr "1";
     JStr "-sT"; JStr "-p"; JStr "1-65535"; JStr "-oX"; JStr "-"; JStr "192.168.1.10"].
Proof. reflexivity. Qed.

(** ** Properties of the command runner *)

Lemma string_length_app (s t : string) :
  String.length (s +:+ t) = (String.length s + String.length t)%nat.
Proof. induction s as [|c s IH]; simpl; [reflexivity | now rewrite IH]. Qed.

Lemma settle_settled r p : p_settled (settle r p) = Some (default r (p_settled p)).
Proof. unfold settle. destruct (p_settled p) eqn:H; simpl; [exact H | reflexivity]. Qed.

(** A settled promise stays as it was settled. *)
Lemma settled_stays maxSize events :
  ∀ p r, p_settled p = Some r → p_settled (fold_left (on_event maxSize) events p) = Some r.
Proof.
  induction events as [|ev events IH]; intros p r Hp; simpl; [exact Hp |].
  apply IH. destruct ev as [data | data | code | e]; simpl.
  - destruct (maxSize <? _)%N; simpl; [| exact Hp]. rewrite settle_settled. simpl. now rewrite Hp.
  - exact Hp.
  - rewrite settle_settled. now rewrite Hp.
  - rewrite settle_settled. now rewrite Hp.
Qed.

(** Data within the limit is accumulated and settles nothing. *)
Lemma data_accumulates maxSize events :
  ∀ p, forallb is_data events = true →
       (p_outputSize p + N.of_nat (String.length (stdout_of events)) <= maxSize)%N →
       fold_left (on_event maxSize) events p =
       mkPromise (p_stdout p +:+ stdout_of events) (p_stderr p +:+ stderr_of events)
         (p_outputSize p + N.of_nat (String.length (stdout_of events)))
         (p_kills p) (p_settled p).
Proof.
  assert (Hnil : ∀ s, s +:+ "" = s) by (induction s as [|c s IH]; simpl; congruence).
  induction events as [|ev events IH]; intros p Hd Hsz.
  - simpl. rewrite !Hnil, N.add_0_r. now destruct p.
  - simpl in Hd. apply andb_true_iff in Hd as [Hev Hd].
    destruct ev as [data | data | code | e]; try discriminate; simpl in *.
    + rewrite string_length_app, Nat2N.inj_add in Hsz.
      destruct (N.ltb_spec maxSize (p_outputSize p + N.of_nat (String.length data))) as [Hlt|Hle];
        [lia |].
      rewrite IH; simpl; [| exact Hd | lia].
      rewrite string_length_app, Nat2N.inj_add, !string_app_assoc, N.add_assoc. reflexivity.
    + rewrite IH; simpl; [| exact Hd | exact Hsz]. now rewrite !string_app_assoc.
Qed.

(** Where a rejection comes from. *)
Lemma rejection_origin maxSize events :
  ∀ p e, p_settled (fold_left (on_event maxSize) events p) = Some (inr e) →
         p_settled p = Some (inr e) ∨ e = ErrorObj "Output size limit exceeded" ∨
         In (ErrorEvent e) events.
Proof.
  induction events as [|ev events IH]; intros p e H; simpl in H; [now left |].
  apply IH in H as [H | [H | H]]; [| now right; left | now right; right; right].
  destruct ev as [data | data | code | e']; simpl in H.
  - destruct (maxSize <? _)%N; simpl in H; [| now left].
    rewrite settle_settled in H. simpl in H.
    destruct (p_settled p) as [r|] eqn:Hp; simpl in H; [now left |].
    right; left. congruence.
  - now left.
  - rewrite settle_settled in H. destruct (p_settled p) as [r|]; simpl in H; [now left | congruence].
  - rewrite settle_settled in H. destruct (p_settled p) as [r|]; simpl in H; [now left |].
    right; right; left. congruence.
Qed.

(** Where a resolution comes from: a [close] event. *)
Lemma resolution_origin maxSize events :
  ∀ p r, p_settled (fold_left (on_event maxSize) events p) = Some (inl r) →
         p_settled p = Some (inl r) ∨ ∃ code, In (Close code) events.
Proof.
  induction events as [|ev events IH]; intros p r H; simpl in H; [now left |].
  apply IH in H as [H | [code H]]; [| right; exists code; now right].
  destruct ev as [data | data | code | e']; simpl in H.
  - destruct (maxSize <? _)%N; simpl in H; [| now left].
    rewrite settle_settled in H. simpl in H.
    destruct (p_settled p) as [r'|] eqn:Hp; simpl in H; [now left | congruence].
  - now left.
  - right. exists code. now left.
  - rewrite settle_settled in H. destruct (p_settled p) as [r'|]; simpl in H; [now left | congruence].
Qed.

(** C9, as the code has it.  The timeout is handed to [spawn], and the
    runtime ends the child on expiry.  When a child that stayed within the
    output limit is closed by a signal (exit code [null]), the call
    resolves with the output captured so far and exit code 0.  The call
    rejects only with the output-limit error or with the error of an
    [error] event, never with a timeout error of its own; and it resolves
    only on a [close] event, that is after the child has ended. *)
Theorem executeCommand_on_timeout (command : string) (args : list jsval) (options : CmdOptions)
    (w : World) (events : list ChildEvent) :
  os w (length (spawnLog w))
     (mkSpawnReq command args (js_or (opt_timeout options) (JNum "30000"))) = Child events →
  spawnLog (snd (executeCommand command args options w)) =
    spawnLog w ++ [mkSpawnReq command args (js_or (opt_timeout options) (JNum "30000"))] ∧
  (∀ chunks later,
     events = chunks ++ Close None :: later →
     forallb is_data chunks = true →
     (N.of_nat (String.length (stdout_of chunks)) <= maxSize_of options)%N →
     fst (executeCommand command args options w) =
       Ret (mkCmdResult (stdout_of chunks) (stderr_of chunks) 0)) ∧
  (∀ e, fst (executeCommand command args options w) = Throw e →
     e = ErrorObj "Output size limit exceeded" ∨ In (ErrorEvent e) events) ∧
  (∀ r, fst (executeCommand command args options w) = Ret r →
     ∃ code, In (Close code) events).
Proof.
  intros Hos. unfold executeCommand. rewrite Hos. repeat split.
  - now destruct (p_settled _) as [[r|e]|].
  - intros chunks later -> Hd Hsz. unfold run_listeners.
    rewrite fold_left_app, (data_accumulates _ chunks); [| exact Hd | simpl; exact Hsz].
    simpl.
    rewrite (settled_stays _ later _ (inl (mkCmdResult (stdout_of chunks) (stderr_of chunks) 0)));
      [reflexivity | now rewrite settle_settled].
  - intros e. destruct (p_settled _) as [[r|e']|] eqn:Hp; simpl; try discriminate.
    intros [= ->]. apply rejection_origin in Hp as [Hp | Hp]; [discriminate | exact Hp].
  - intros r. destruct (p_settled _) as [[r'|e']|] eqn:Hp; simpl; try discriminate.
    intros [= ->]. apply resolution_origin in Hp as [Hp | Hp]; [discriminate | exact Hp].
Qed.

(** An instance of C9 as amended: a child that printed [partial] and was
    then ended by a signal. *)
Lemma executeCommand_on_timeout_witness :
  fst (executeCommand "sleep" [JStr "60"] (mkCmdOptions (JNum "1000") None) timeout_world) =
    Ret (mkCmdResult (stdout_of [StdoutData "partial"]) (stderr_of [StdoutData "partial"]) 0).
Proof.
  apply (proj1 (proj2 (executeCommand_on_timeout "sleep" [JStr "60"]
                  (mkCmdOptions (JNum "1000") None) timeout_world
                  [StdoutData "partial"; Close None] eq_refl))
           [StdoutData "partial"] [] eq_refl eq_refl).
  vm_compute. discriminate.
Defined.

(** C9 fails as stated: when the child is ended at the timeout, the call
    resolves with the partial output and exit code 0; it does not fail. *)
Lemma executeCommand_timeout_resolves :
  fst (executeCommand "sleep" [JStr "60"] (mkCmdOptions (JNum "1000") None) timeout_world) =
    Ret (mkCmdResult "partial" "" 0).
Proof. reflexivity. Qed.

(** ** Properties of [executeTool] *)

Lemma settling_os (w w' : World) : os w' = os w → settling w → settling w'.
Proof. unfold settling. intros ->. auto. Qed.

Lemma tame_ret {A} (a : A) : tame (ret a).
Proof. intros w. split; [reflexivity | discriminate]. Qed.

Lemma tame_throw {A} (e : thrown) : tame (@throw World A e).
Proof. intros w. split; [reflexivity | discriminate]. Qed.

Lemma tame_now : tame now.
Proof. intros w. split; [reflexivity | discriminate]. Qed.

Lemma tame_bind {A B} (m : M A) (f : A → M B) :
  tame m → (∀ a, tame (f a)) → tame (bind m f).
Proof.
  intros Hm Hf w. unfold bind. destruct (Hm w) as [Hos Hh].
  destruct (m w) as [[a | e |] w1]; simpl in *.
  - destruct (Hf a w1) as [Hos' Hh']. split; [congruence |].
    intros Hs. apply Hh'. now apply (settling_os w).
  - split; [exact Hos | discriminate].
  - split; [exact Hos |]. intros Hs _. now apply Hh.
Qed.

Lemma tame_try_catch {A} (m : M A) (h : thrown → M A) :
  tame m → (∀ e, tame (h e)) → tame (try_catch m h).
Proof.
  intros Hm Hh w. unfold try_catch. destruct (Hm w) as [Hos Hn].
  destruct (m w) as [[a | e |] w1]; simpl in *.
  - split; [exact Hos | discriminate].
  - destruct (Hh e w1) as [Hos' Hn']. split; [congruence |].
    intros Hs. apply Hn'. now apply (settling_os w).
  - split; [exact Hos | exact Hn].
Qed.

(** A final event settles the promise. *)
Lemma final_settles maxSize events :
  existsb is_final events = true →
  ∀ p, p_settled (fold_left (on_event maxSize) events p) ≠ None.
Proof.
  induction events as [|ev events IH]; simpl; [discriminate |].
  intros H p. apply orb_true_iff in H as [Hev | H]; [| now apply IH].
  destruct ev as [data | data | code | e]; try discriminate; simpl.
  - erewrite settled_stays; [discriminate | apply settle_settled].
  - erewrite settled_stays; [discriminate | apply settle_settled].
Qed.

Lemma tame_executeCommand command args options : tame (executeCommand command args options).
Proof.
  intros w. unfold executeCommand.
  destruct (os w _ _) as [e | events] eqn:Hos; simpl.
  - split; [reflexivity | discriminate].
  - split.
    + now destruct (p_settled _) as [[r | e] |].
    + intros Hs. specialize (Hs _ _ _ Hos).
      pose proof (final_settles (maxSize_of options) events Hs new_promise) as Hp.
      fold (run_listeners (maxSize_of options) events) in Hp.
      destruct (p_settled _) as [[r | e] |]; simpl; [discriminate | discriminate | congruence].
Qed.

Create HintDb tame.
#[local] Hint Resolve tame_ret tame_throw tame_now tame_executeCommand : tame.
#[local] Hint Extern 2 (tame (bind _ _)) => apply tame_bind; [| intros ?] : tame.
#[local] Hint Extern 2 (tame (try_catch _ _)) => apply tame_try_catch; [| intros ?] : tame.

Lemma tame_executeDNSLookup domain recordType : tame (executeDNSLookup domain recordType).
Proof. unfold executeDNSLookup. auto 10 with tame. Qed.

Lemma tame_executeWhois domain : tame (executeWhois domain).
Proof. unfold executeWhois. auto 10 with tame. Qed.

Lemma tame_executeNmap options : tame (executeNmap options).
Proof.
  unfold executeNmap, parseNmapOutput.
  destruct (negb (isTargetAllowed _)); auto 10 with tame.
Qed.

Lemma tame_enumerateLoop subs domain : ∀ found, tame (enumerateLoop subs domain found).
Proof.
  induction subs as [|sub subs IH]; intros found; simpl; [apply tame_ret |].
  apply tame_bind; [| exact IH].
  apply tame_try_catch; [| intros; apply tame_ret].
  apply tame_bind; [apply tame_executeDNSLookup |].
  intros r. destruct (0 <? _)%nat; apply tame_ret.
Qed.

Lemma tame_guarded {A} cond fallback (m : M A) : tame m → tame (guarded cond fallback m).
Proof. intros Hm. unfold guarded. destruct cond; auto 10 with tame. Qed.

Lemma tame_executeDomainIntel options : tame (executeDomainIntel options).
Proof.
  unfold executeDomainIntel, enumerateSubdomains.
  repeat (apply tame_bind; [| intros ?]);
    auto using tame_now, tame_ret, tame_guarded, tame_executeDNSLookup, tame_executeWhois.
  apply tame_guarded.
  apply tame_bind; [apply tame_enumerateLoop | intros ?; auto 10 with tame].
Qed.

Lemma tame_dispatch toolName args : tame (dispatch toolName args).
Proof.
  unfold dispatch.
  repeat match goal with |- context [String.eqb ?a ?b] => destruct (String.eqb a b) end;
    auto 10 using tame_executeNmap, tame_executeDomainIntel, tame_executeWhois,
      tame_executeDNSLookup with tame.
Qed.

(** [executeTool] by the outcome of its [try] block. *)
Lemma executeTool_unfold toolName args w :
  executeTool toolName args w =
  match dispatch toolName args (tick w) with
  | (Ret r, w1) => succeeded toolName args (clock w (clockReads w)) r w1
  | (Throw e, w1) => caught toolName args (clock w (clockReads w)) e w1
  | (Hang, w1) => (Hang, w1)
  end.
Proof.
  unfold executeTool, bind at 1, now, try_catch, bind at 1.
  destruct (dispatch toolName args (tick w)) as [[r | e |] w1]; reflexivity.
Qed.

Lemma succeeded_eq toolName args startTime r w :
  succeeded toolName args startTime r w =
  (Ret (mkToolResult true (Some (fst r)) None (snd r) (clock w (clockReads w) - startTime)
          (mkAuditLog toolName args (clock w (S (clockReads w))) (AuditData (fst r)))),
   tick (tick w)).
Proof. reflexivity. Qed.

Lemma caught_eq toolName args startTime e w :
  caught toolName args startTime e w =
  (Ret (mkToolResult false None (Some (message_or "Unknown error" e)) high
          (clock w (clockReads w) - startTime)
          (mkAuditLog toolName args (clock w (S (clockReads w)))
             (AuditError (message_or "Unknown error" e)))),
   tick (tick w)).
Proof. reflexivity. Qed.

Lemma executeTool_never_throws toolName args w e :
  fst (executeTool toolName args w) ≠ Throw e.
Proof.
  rewrite executeTool_unfold.
  destruct (dispatch toolName args (tick w)) as [[r | e' |] w1]; discriminate.
Qed.

Lemma executeTool_returns toolName args w :
  settling w → ∃ r, fst (executeTool toolName args w) = Ret r.
Proof.
  intros Hs. rewrite executeTool_unfold.
  destruct (tame_dispatch toolName args (tick w)) as [_ Hn].
  destruct (dispatch toolName args (tick w)) as [[r | e |] w1].
  - rewrite succeeded_eq. eauto.
  - rewrite caught_eq. eauto.
  - exfalso. now apply Hn.
Qed.

(** C10. [executeTool] never throws, and in a world whose children all end
    it returns a result.  Whenever its [try] block throws, the result has
    [success = false], no data, the error message, risk level [high]
    whatever the tool, and an audit entry recording the error; a tool name
    outside the four known ones makes the [try] block throw. *)
Theorem executeTool_total (toolName : string) (args : jsobj) (w : World) :
  (∀ e, fst (executeTool toolName args w) ≠ Throw e) ∧
  (settling w → ∃ r, fst (executeTool toolName args w) = Ret r) ∧
  (∀ e w1, dispatch toolName args (tick w) = (Throw e, w1) →
     ∃ r, fst (executeTool toolName args w) = Ret r ∧
          success r = false ∧ data r = None ∧
          error r = Some (message_or "Unknown error" e) ∧
          tr_riskLevel r = high ∧
          al_command (tr_auditLog r) = toolName ∧
          al_arguments (tr_auditLog r) = args ∧
          al_result (tr_auditLog r) = AuditError (message_or "Unknown error" e)) ∧
  (toolName ≠ "nmap" → toolName ≠ "domain_intel" → toolName ≠ "whois" →
   toolName ≠ "dns_lookup" →
     dispatch toolName args (tick w) = (Throw (ErrorObj ("Unknown tool: " +:+ toolName)), tick w)).
Proof.
  split; [intros e; apply executeTool_never_throws |].
  split; [apply executeTool_returns |].
  split.
  - intros e w1 Hd. rewrite executeTool_unfold, Hd, caught_eq. simpl. eauto 10.
  - intros H1 H2 H3 H4. unfold dispatch.
    apply String.eqb_neq in H1, H2, H3, H4. now rewrite H1, H2, H3, H4.
Qed.

(** An instance of C10: a WHOIS lookup, otherwise of low risk, in a world
    where no command can be started. *)
Lemma executeTool_total_witness :
  ∃ r, fst (executeTool "whois" {[ "domain" := JStr "example.com" ]} broken_world) = Ret r ∧
       success r = false ∧ data r = None ∧
       error r = Some (message_or "Unknown error" (ErrorObj "spawn ENOENT")) ∧
       tr_riskLevel r = high ∧
       al_command (tr_auditLog r) = "whois" ∧
       al_arguments (tr_auditLog r) = {[ "domain" := JStr "example.com" ]} ∧
       al_result (tr_auditLog r) = AuditError (message_or "Unknown error" (ErrorObj "spawn ENOENT")).
Proof.
  exact (proj1 (proj2 (proj2 (executeTool_total "whois" {[ "domain" := JStr "example.com" ]}
                                 broken_world)))
           (ErrorObj "spawn ENOENT")
           (snd (dispatch "whois" {[ "domain" := JStr "example.com" ]} (tick broken_world)))
           eq_refl).
Defined.

(** ** The routes, case by case *)

Lemma bind_run {S A B} (m : ST S A) (f : A → ST S B) (s : S) :
  bind m f s =
  match m s with
  | (Ret a, s') => f a s'
  | (Throw e, s') => (Throw e, s')
  | (Hang, s') => (Hang, s')
  end.
Proof. reflexivity. Qed.

Lemma ret_run {S A} (a : A) (s : S) : ret a s = (Ret a, s).
Proof. reflexivity. Qed.

Lemma lift_run {A} (m : M A) (s : Server) :
  lift m s = (fst (m (world s)), with_world (snd (m (world s))) s).
Proof. unfold lift. now destruct (m (world s)). Qed.

(** One step of a route: a lifted computation of the service. *)
Ltac step := rewrite bind_run, lift_run; cbn [fst snd now]; cbv beta iota.

Lemma hexchar_cases (n : N) :
  hex_lower (hexchar n) = Some (hexchar n) ∧
  Ascii.eqb (hexchar n) "-" = false ∧ Ascii.eqb (hexchar n) "{" = false.
Proof.
  unfold hexchar. destruct (n mod 16)%N as [|p]; [now vm_compute |].
  do 4 (try destruct p as [p | p |]); now vm_compute.
Qed.

Lemma hex_lower_nibble v k : hex_lower (nibble v k) = Some (nibble v k).
Proof. apply hexchar_cases. Qed.

Lemma nibble_not_hyphen v k : Ascii.eqb (nibble v k) "-" = false.
Proof. apply hexchar_cases. Qed.

Lemma nibble_not_brace v k : Ascii.eqb (nibble v k) "{" = false.
Proof. apply hexchar_cases. Qed.

(** The database reads the text of a value as that value. *)
Lemma uuid_in_out (v : N) : uuid_in (uuid_out v) = Some (uuid_out v).
Proof.
  unfold uuid_in, uuid_out.
  cbn [bytes_out hyphen_after Nat.eqb orb Nat.sub Nat.mul Nat.add String.append].
  rewrite nibble_not_brace.
  repeat first
    [ rewrite hex_lower_nibble
    | rewrite nibble_not_hyphen
    | progress cbn [read_bytes Nat.odd Nat.even Nat.ltb Nat.leb andb negb skip_hyphen
                    hyphen_after Nat.eqb orb String.append Ascii.eqb Bool.eqb String.eqb] ].
  reflexivity.
Qed.

(** An id the database has given is read as itself. *)
Lemma uuid_in_uuid (s : Server) (n : nat) : uuid_in (uuid s n) = Some (uuid s n).
Proof. apply uuid_in_out. Qed.

Lemma createToolRun_cases (toolRun : InsertToolRun) (s : Server) :
  (∃ e s', createToolRun toolRun s = (Throw e, s') ∧ world s' = tick (world s) ∧
           toolRuns s' = toolRuns s ∧ journal s' = journal s) ∨
  (ins_sessionId toolRun ∈ sessions s ∧ toolRuns s !! uuid s (uuidReads s) = None ∧
   createToolRun toolRun s =
     (Ret (new_row (uuid s (uuidReads s)) toolRun (clock (world s) (clockReads (world s)))),
      write_row (uuid s (uuidReads s))
        (new_row (uuid s (uuidReads s)) toolRun (clock (world s) (clockReads (world s))))
        (mkServer (tick (world s)) (uuidGen s) (S (uuidReads s)) (sessions s) (toolRuns s)
           (journal s)))).
Proof.
  unfold createToolRun, bind, lift, now, uuid.
  cbn [world uuidGen uuidReads sessions toolRuns journal with_world].
  change (uuid_out (uuidGen s (uuidReads s))) with (uuid s (uuidReads s)).
  destruct (decide (ins_sessionId toolRun ∈ sessions s)) as [Hin | Hout].
  - rewrite (bool_decide_eq_true_2 _ Hin). cbn [negb].
    destruct (toolRuns s !! uuid s (uuidReads s)) as [r |] eqn:Hl.
    + rewrite bool_decide_eq_true_2 by eauto. left. eauto 10.
    + rewrite bool_decide_eq_false_2 by (intros [? ?]; discriminate). right. auto.
  - rewrite (bool_decide_eq_false_2 _ Hout). cbn [negb]. left. eauto 10.
Qed.

Lemma createToolRun_ok (toolRun : InsertToolRun) (s : Server) :
  ins_sessionId toolRun ∈ sessions s → toolRuns s !! uuid s (uuidReads s) = None →
  createToolRun toolRun s =
    (Ret (new_row (uuid s (uuidReads s)) toolRun (clock (world s) (clockReads (world s)))),
     write_row (uuid s (uuidReads s))
       (new_row (uuid s (uuidReads s)) toolRun (clock (world s) (clockReads (world s))))
       (mkServer (tick (world s)) (uuidGen s) (S (uuidReads s)) (sessions s) (toolRuns s)
          (journal s))).
Proof.
  intros Hin Hfresh.
  destruct (createToolRun_cases toolRun s) as [(e & s' & Hc & _) | (_ & _ & Hc)]; [| exact Hc].
  exfalso. revert Hc. unfold createToolRun, uuid. rewrite bind_run, lift_run.
  cbn [fst snd now]. cbv beta iota. cbn [sessions toolRuns uuidGen uuidReads with_world].
  change (uuid_out (uuidGen s (uuidReads s))) with (uuid s (uuidReads s)).
  rewrite (bool_decide_eq_true_2 _ Hin), Hfresh. cbn [negb].
  rewrite bool_decide_eq_false_2 by (intros [? ?]; discriminate). discriminate.
Qed.

(** The execute route when the request is well-formed, its session exists
    and the new id is free. *)
Lemma executeRoute_created (userId : string) (data : ToolExecution) (s : Server) :
  te_sessionId data ∈ sessions s → toolRuns s !! uuid s (uuidReads s) = None →
  executeRoute (mkExecuteRequest (Some userId) (inr data)) s =
    if requested (te_requiresApproval data) then
      (Ret (mkResponse 200 (AwaitingApproval (created_row data s))), after_create data s)
    else
      match executeTool (te_toolName data) (te_arguments data) (tick (world s)) with
      | (Ret result, w) =>
          (Ret (mkResponse 200 (Executed (created_row data s) result)),
           after_execute data s result w)
      | (_, w) => (Hang, with_world w (after_create data s))
      end.
Proof.
  intros Hin Hfresh. unfold executeRoute. cbn [ex_user ex_body].
  unfold try_catch. rewrite bind_run, ret_run. cbv beta iota. rewrite bind_run.
  rewrite (createToolRun_ok (execute_insert data) s Hin Hfresh). cbv beta iota.
  fold (created_row data s). fold (after_create data s).
  destruct (requested (te_requiresApproval data)); cbn [negb]; [reflexivity |].
  rewrite bind_run, lift_run.
  change (world (after_create data s)) with (tick (world s)).
  pose proof (executeTool_never_throws (te_toolName data) (te_arguments data) (tick (world s)))
    as Hnt.
  destruct (executeTool (te_toolName data) (te_arguments data) (tick (world s)))
    as [[result | e |] w]; cbn [fst snd]; cbv beta iota;
    [| exfalso; now apply (Hnt e) | reflexivity].
  repeat step.
  rewrite bind_run. unfold updateToolRun.
  cbn [toolRuns with_world after_create write_row created_row new_row run_id world].
  rewrite uuid_in_uuid, lookup_insert_eq. cbv beta iota. rewrite ret_run.
  reflexivity.
Qed.

(** The execute route in every case: it answers with a message and writes
    nothing, or it creates a row. *)
Lemma executeRoute_cases (req : ExecuteRequest) (s : Server) :
  (∃ code msg s', executeRoute req s = (Ret (mkResponse code (Message msg)), s') ∧
                  toolRuns s' = toolRuns s ∧ journal s' = journal s ∧
                  spawnLog (world s') = spawnLog (world s)) ∨
  (∃ userId data,
     req = mkExecuteRequest (Some userId) (inr data) ∧
     te_sessionId data ∈ sessions s ∧ toolRuns s !! uuid s (uuidReads s) = None).
Proof.
  destruct req as [[userId |] [zodError | data]].
  - left. exists 500, zodError, s. auto.
  - destruct (createToolRun_cases (execute_insert data) s)
      as [(e & s' & Hc & Hw & Ht & Hj) | (Hin & Hfresh & Hc)].
    + left. exists 500, (message_or "Tool execution failed" e), s'.
      unfold executeRoute. cbn [ex_user ex_body].
      unfold try_catch. rewrite bind_run, ret_run. cbv beta iota. rewrite bind_run, Hc.
      cbv beta iota. repeat split; auto. now rewrite Hw.
    + right. exists userId, data. auto.
  - left. exists 401, "User not authenticated", s. auto.
  - left. exists 401, "User not authenticated", s. auto.
Qed.

(** The approve route in every case. *)
Lemma approveRoute_cases (req : ApproveRequest) (s : Server) :
  match ap_user req with
  | None => approveRoute req s = (Ret (mkResponse 401 (Message "User not authenticated")), s)
  | Some userId =>
      match uuid_in (ap_id req) with
      | None =>
          approveRoute req s =
            (Ret (mkResponse 500
                    (Message (message_or "Tool approval failed" (invalid_uuid (ap_id req))))), s)
      | Some key =>
          match toolRuns s !! key with
          | None =>
              approveRoute req s = (Ret (mkResponse 404 (Message "Tool run not found")), s)
          | Some r =>
              approveRoute req s =
                match executeTool (run_toolName r) (run_arguments r) (world s) with
                | (Ret result, w) =>
                    (Ret (mkResponse 200 (Approved result)),
                     after_approve userId key r s result w)
                | (_, w) => (Hang, with_world w s)
                end
          end
      end
  end.
Proof.
  unfold approveRoute. destruct (ap_user req) as [userId |]; [| reflexivity].
  unfold try_catch. rewrite bind_run. unfold getToolRun. cbv beta iota.
  destruct (uuid_in (ap_id req)) as [key |] eqn:Hid; [| reflexivity].
  destruct (toolRuns s !! key) as [r |] eqn:Hl; [| reflexivity].
  rewrite bind_run, lift_run.
  pose proof (executeTool_never_throws (run_toolName r) (run_arguments r) (world s)) as Hnt.
  destruct (executeTool (run_toolName r) (run_arguments r) (world s))
    as [[result | e |] w]; cbn [fst snd]; cbv beta iota;
    [| exfalso; now apply (Hnt e) | reflexivity].
  repeat step.
  rewrite bind_run. unfold updateToolRun. cbn [toolRuns with_world].
  rewrite Hid, Hl. cbv beta iota. rewrite ret_run.
  reflexivity.
Qed.

Lemma journal_after_create data s :
  journal (after_create data s) =
  journal s ++ [(uuid s (uuidReads s),
                 if requested (te_requiresApproval data) then pending else running)].
Proof. reflexivity. Qed.

Lemma journal_after_execute data s result w :
  journal (after_execute data s result w) =
  journal s ++ [(uuid s (uuidReads s),
                 if requested (te_requiresApproval data) then pending else running);
                (uuid s (uuidReads s), completed)].
Proof.
  unfold after_execute, write_row. cbn [journal with_world].
  rewrite journal_after_create, <- app_assoc. reflexivity.
Qed.

Lemma journal_after_approve userId id r s result w :
  journal (after_approve userId id r s result w) = journal s ++ [(id, completed)].
Proof. reflexivity. Qed.

(** ** Properties of the approval route *)

(** C1, as the code has it.  Approval by an authenticated user of a text
    the database does not read as a uuid fails with status 500 and the
    message of the database, and of an id that no run has with NotFound,
    in both cases leaving the server as it was.  When a run has the id,
    the route makes no check of its status: whatever the status, it runs
    the tool and, once the tool has returned, records the run as completed
    with the result and the approver and answers with success; in a world
    whose children all end it does answer. *)
Theorem approveRoute_checks_existence_only (s : Server) (userId id : string) :
  (uuid_in id = None →
     approveRoute (mkApproveRequest (Some userId) id) s =
       (Ret (mkResponse 500 (Message (message_or "Tool approval failed" (invalid_uuid id)))),
        s)) ∧
  (∀ key, uuid_in id = Some key → toolRuns s !! key = None →
     approveRoute (mkApproveRequest (Some userId) id) s =
       (Ret (mkResponse 404 (Message "Tool run not found")), s)) ∧
  (∀ key r, uuid_in id = Some key → toolRuns s !! key = Some r →
     (∀ resp s', approveRoute (mkApproveRequest (Some userId) id) s = (Ret resp, s') →
        ∃ result w r',
          executeTool (run_toolName r) (run_arguments r) (world s) = (Ret result, w) ∧
          resp = mkResponse 200 (Approved result) ∧
          spawnLog (world s') = spawnLog w ∧
          toolRuns s' !! key = Some r' ∧
          run_status r' = completed ∧ run_result r' = Some result ∧
          run_approvedBy r' = Some userId ∧ is_Some (run_approvedAt r') ∧
          journal s' = journal s ++ [(key, completed)]) ∧
     (settling (world s) →
        ∃ resp s', approveRoute (mkApproveRequest (Some userId) id) s = (Ret resp, s'))).
Proof.
  pose proof (approveRoute_cases (mkApproveRequest (Some userId) id) s) as H.
  cbn [ap_user ap_id] in H. split; [| split].
  - intros Hid. now rewrite Hid in H.
  - intros key Hid Hl. now rewrite Hid, Hl in H.
  - intros key r Hid Hl. rewrite Hid, Hl in H. split.
    + intros resp s' Heq. rewrite H in Heq.
      destruct (executeTool (run_toolName r) (run_arguments r) (world s))
        as [[result | e |] w]; try discriminate.
      injection Heq as <- <-. eexists result, w, _. repeat split.
      * unfold after_approve, write_row. cbn [toolRuns]. apply lookup_insert_eq.
      * reflexivity.
      * reflexivity.
      * reflexivity.
      * cbn. eauto.
    + intros Hs. rewrite H.
      destruct (executeTool_returns (run_toolName r) (run_arguments r) (world s) Hs)
        as [result Hr].
      destruct (executeTool (run_toolName r) (run_arguments r) (world s))
        as [[result' | e |] w]; try discriminate. eauto.
Qed.

(** An instance of C1 as amended: on the server on which the WHOIS run is
    completed, approval of that run runs its tool again and answers with
    success; approval of an id that no run has is answered with 404, and
    approval of a text that is no uuid with 500. *)
Lemma approveRoute_checks_existence_only_witness :
  (∃ result s' r',
     approveRoute approve_request server_after_whois =
       (Ret (mkResponse 200 (Approved result)), s') ∧
     run_status <$> toolRuns server_after_whois !! run_0 = Some completed ∧
     toolRuns s' !! run_0 = Some r' ∧
     run_status r' = completed ∧ run_result r' = Some result ∧
     run_approvedBy r' = Some "admin-1") ∧
  approveRoute (mkApproveRequest (Some "admin-1") "{9F1C2E4A7B3D4C5E8A6F0B1D2C3E4F57}")
    server_after_whois =
    (Ret (mkResponse 404 (Message "Tool run not found")), server_after_whois) ∧
  approveRoute (mkApproveRequest (Some "admin-1") "run-7") server_after_whois =
    (Ret (mkResponse 500 (Message (message_or "Tool approval failed" (invalid_uuid "run-7")))),
     server_after_whois).
Proof.
  split; [| split].
  - eassert (toolRuns server_after_whois !! run_0 = Some _) as Hl by (vm_compute; reflexivity).
    assert (settling (world server_after_whois)) as Hs.
    { intros n req events H. vm_compute in H. injection H as <-. reflexivity. }
    destruct (proj2 (proj2 (approveRoute_checks_existence_only server_after_whois "admin-1"
                              run_0)) _ _ eq_refl Hl)
      as [Hsound Hlive].
    destruct (Hlive Hs) as (resp & s' & Heq).
    destruct (Hsound resp s' Heq) as (result & w & r' & _ & -> & _ & Hl' & Hst & Hres & Hby & _).
    exists result, s', r'.
    split; [exact Heq |]. split; [vm_compute; reflexivity |]. auto.
  - exact (proj1 (proj2 (approveRoute_checks_existence_only server_after_whois "admin-1"
                           "{9F1C2E4A7B3D4C5E8A6F0B1D2C3E4F57}")) _ eq_refl eq_refl).
  - exact (proj1 (approveRoute_checks_existence_only server_after_whois "admin-1" "run-7")
             eq_refl).
Defined.

(** C1 fails as stated: the run [run_0] is completed, and approving it
    answers with success and starts the tool a second time. *)
Lemma approveRoute_reexecutes_completed_run :
  run_status <$> toolRuns server_after_whois !! run_0 = Some completed ∧
  res_status <$> (match fst (approveRoute approve_request server_after_whois) with
                  | Ret resp => Some resp
                  | _ => None
                  end) = Some 200 ∧
  length (spawnLog (world server_after_whois)) = 1 ∧
  length (spawnLog (world (snd (approveRoute approve_request server_after_whois)))) = 2.
Proof. vm_compute. auto. Qed.

(** ** Rows that exist are kept *)

(** The execute route leaves every row that exists as it is. *)
Lemma executeRoute_keeps_rows (req : ExecuteRequest) (s : Server) (id : string) (r : ToolRun) :
  toolRuns s !! id = Some r → toolRuns (snd (executeRoute req s)) !! id = Some r.
Proof.
  intros Hl.
  destruct (executeRoute_cases req s)
    as [(code & msg & s' & -> & Ht & _) | (userId & data & -> & Hin & Hfresh)].
  - cbn [snd]. now rewrite Ht.
  - assert (uuid s (uuidReads s) ≠ id) as Hne by congruence.
    rewrite (executeRoute_created userId data s Hin Hfresh).
    destruct (requested (te_requiresApproval data)).
    + cbn [snd after_create write_row toolRuns]. now rewrite lookup_insert_ne.
    + destruct (executeTool _ _ _) as [[result | e |] w];
        cbn [snd after_execute after_create write_row toolRuns with_world];
        now rewrite ?lookup_insert_ne.
Qed.

(** The approve route keeps every row and the columns set at creation. *)
Lemma approveRoute_keeps_fixed (req : ApproveRequest) (s : Server) (id : string) (r : ToolRun) :
  toolRuns s !! id = Some r →
  ∃ r', toolRuns (snd (approveRoute req s)) !! id = Some r' ∧ same_fixed_columns r r'.
Proof.
  intros Hl. pose proof (approveRoute_cases req s) as H.
  assert (same_fixed_columns r r) as Hrefl by (repeat split).
  destruct (ap_user req) as [userId |]; [| rewrite H; eauto].
  destruct (uuid_in (ap_id req)) as [key |]; [| rewrite H; eauto].
  destruct (toolRuns s !! key) as [r0 |] eqn:Hl0; [| rewrite H; eauto].
  rewrite H. destruct (executeTool _ _ _) as [[result | e |] w]; cbn [snd]; eauto.
  unfold after_approve, write_row. cbn [toolRuns with_world].
  destruct (decide (key = id)) as [Heq | Hne].
  - rewrite Heq in Hl0 |- *. rewrite lookup_insert_eq. eexists. split; [reflexivity |].
    assert (r0 = r) as -> by congruence. repeat split.
  - rewrite lookup_insert_ne by exact Hne. eauto.
Qed.

(** What a result of [executeTool] looks like. *)
Lemma executeTool_result (toolName : string) (args : jsobj) (w w' : World) (r : ToolResult) :
  executeTool toolName args w = (Ret r, w') →
  al_command (tr_auditLog r) = toolName ∧ al_arguments (tr_auditLog r) = args ∧
  ((success r = true ∧ error r = None ∧ ∃ d, data r = Some d ∧ al_result (tr_auditLog r) = AuditData d) ∨
   (success r = false ∧ data r = None ∧ tr_riskLevel r = high ∧
    ∃ msg, error r = Some msg ∧ al_result (tr_auditLog r) = AuditError msg)).
Proof.
  rewrite executeTool_unfold.
  destruct (dispatch toolName args (tick w)) as [[d | e |] w1].
  - rewrite succeeded_eq. intros [= <- _]. cbn. eauto 10.
  - rewrite caught_eq. intros [= <- _]. cbn. eauto 10.
  - discriminate.
Qed.

(** A scan of a target outside the allow-list is refused at once. *)
Lemma executeTool_blocked (args : jsobj) (w : World) :
  isTargetAllowed args.["target"] = false →
  executeTool "nmap" args w =
    (Ret (mkToolResult false None
            (Some "Target not allowed. Only local/private networks are permitted.") high
            (clock w (S (clockReads w)) - clock w (clockReads w))
            (mkAuditLog "nmap" args (clock w (S (S (clockReads w))))
               (AuditError "Target not allowed. Only local/private networks are permitted."))),
     tick (tick (tick w))).
Proof.
  intros Hna. rewrite executeTool_unfold.
  assert (dispatch "nmap" args (tick w) =
          (Throw (ErrorObj "Target not allowed. Only local/private networks are permitted."),
           tick w)) as ->.
  { unfold dispatch, executeNmap. rewrite Hna. reflexivity. }
  rewrite caught_eq. reflexivity.
Qed.

(** ** Properties of the tool-run ledger *)

Ltac written :=
  unfold written_status; repeat (apply List.Forall_cons; [cbn; auto |]); apply List.Forall_nil.

(** C3, as the code has it.  A run whose execution has returned is
    recorded as completed with the result of the tool, on success and on
    failure alike.  On the execute route: when the call is sent without a
    request for approval, for a session that exists, and the tool returns
    [result], whatever its [success], the route answers with the run and
    that result, the run is stored as completed with that result,
    [executedAt] and [completedAt] are set, the [errorMessage] and
    [auditLog] columns are not written, and the ledger shows the run as
    running and then as completed.  On the approve route: when the id is
    that of a run and the tool of the run returns [result], the route
    answers with that result and the run is stored as completed with it.
    Conversely an answer that carries a result comes with such a row, a
    failure is visible only inside the result, and the routes write no
    status but [pending], [running] and [completed]. *)
Theorem routes_record_completed (s : Server) :
  (∀ userId data result w,
     requested (te_requiresApproval data) = false →
     te_sessionId data ∈ sessions s → toolRuns s !! uuid s (uuidReads s) = None →
     executeTool (te_toolName data) (te_arguments data) (tick (world s)) = (Ret result, w) →
     ∃ toolRun s' r',
       executeRoute (mkExecuteRequest (Some userId) (inr data)) s =
         (Ret (mkResponse 200 (Executed toolRun result)), s') ∧
       run_id toolRun = uuid s (uuidReads s) ∧
       toolRuns s' !! run_id toolRun = Some r' ∧
       run_status r' = completed ∧ run_result r' = Some result ∧
       is_Some (run_executedAt r') ∧ is_Some (run_completedAt r') ∧
       run_errorMessage r' = None ∧ run_auditLog r' = None ∧
       journal s' = journal s ++ [(run_id toolRun, running); (run_id toolRun, completed)]) ∧
  (∀ userId id key r result w,
     uuid_in id = Some key → toolRuns s !! key = Some r →
     executeTool (run_toolName r) (run_arguments r) (world s) = (Ret result, w) →
     ∃ s' r',
       approveRoute (mkApproveRequest (Some userId) id) s =
         (Ret (mkResponse 200 (Approved result)), s') ∧
       toolRuns s' !! key = Some r' ∧
       run_status r' = completed ∧ run_result r' = Some result ∧
       is_Some (run_executedAt r') ∧ is_Some (run_completedAt r') ∧
       run_errorMessage r' = run_errorMessage r ∧ run_auditLog r' = run_auditLog r ∧
       journal s' = journal s ++ [(key, completed)]) ∧
  (∀ req resp s' toolRun result,
     executeRoute req s = (Ret resp, s') → res_body resp = Executed toolRun result →
     ∃ r', toolRuns s' !! run_id toolRun = Some r' ∧
           run_status r' = completed ∧ run_result r' = Some result ∧
           is_Some (run_executedAt r') ∧ is_Some (run_completedAt r') ∧
           run_errorMessage r' = None ∧ run_auditLog r' = None ∧
           al_command (tr_auditLog result) = run_toolName r' ∧
           (success result = false → is_Some (error result))) ∧
  (∀ req resp s' result,
     approveRoute req s = (Ret resp, s') → res_body resp = Approved result →
     ∃ key r r', uuid_in (ap_id req) = Some key ∧
             toolRuns s !! key = Some r ∧ toolRuns s' !! key = Some r' ∧
             run_status r' = completed ∧ run_result r' = Some result ∧
             is_Some (run_executedAt r') ∧ is_Some (run_completedAt r') ∧
             run_errorMessage r' = run_errorMessage r ∧ run_auditLog r' = run_auditLog r ∧
             al_command (tr_auditLog result) = run_toolName r' ∧
             (success result = false → is_Some (error result))) ∧
  (∀ req, ∃ new, journal (snd (executeRoute req s)) = journal s ++ new ∧
                 Forall written_status new) ∧
  (∀ req, ∃ new, journal (snd (approveRoute req s)) = journal s ++ new ∧
                 Forall written_status new).
Proof.
  split; [| split; [| repeat split]].
  - intros userId data result w Hreq Hin Hfresh Hex.
    rewrite (executeRoute_created userId data s Hin Hfresh), Hreq, Hex.
    eexists _, _, _. split; [reflexivity |]. split; [reflexivity |]. split.
    { unfold after_execute, write_row. cbn [toolRuns created_row new_row run_id].
      apply lookup_insert_eq. }
    rewrite journal_after_execute, Hreq. cbn. repeat split; eauto.
  - intros userId id key r result w Hid Hl Hex.
    pose proof (approveRoute_cases (mkApproveRequest (Some userId) id) s) as H.
    cbn [ap_user ap_id] in H. rewrite Hid, Hl, Hex in H. rewrite H.
    eexists _, _. split; [reflexivity |]. split.
    { unfold after_approve, write_row. cbn [toolRuns]. apply lookup_insert_eq. }
    cbn. repeat split; eauto.
  - intros req resp s' toolRun result Heq Hbody.
    destruct (executeRoute_cases req s)
      as [(code & msg & s0 & Hm & _) | (userId & data & -> & Hin & Hfresh)].
    { rewrite Hm in Heq. injection Heq as <- _. discriminate. }
    rewrite (executeRoute_created userId data s Hin Hfresh) in Heq.
    destruct (requested (te_requiresApproval data)).
    { injection Heq as <- _. discriminate. }
    destruct (executeTool _ _ _) as [[result' | e |] w] eqn:Hex; try discriminate.
    injection Heq as <- <-. cbn [res_body] in Hbody. injection Hbody as <- <-.
    apply executeTool_result in Hex as (Hcmd & _ & Hshape).
    eexists. split.
    { unfold after_execute, write_row. cbn [toolRuns created_row new_row run_id].
      apply lookup_insert_eq. }
    cbn. repeat split; eauto.
    intros Hf. destruct Hshape as [(Ht & _) | (_ & _ & _ & msg & -> & _)]; [congruence | eauto].
  - intros req resp s' result Heq Hbody.
    pose proof (approveRoute_cases req s) as H.
    destruct (ap_user req) as [userId |].
    2: { rewrite H in Heq. injection Heq as <- _. discriminate. }
    destruct (uuid_in (ap_id req)) as [key |].
    2: { rewrite H in Heq. injection Heq as <- _. discriminate. }
    destruct (toolRuns s !! key) as [r |] eqn:Hl.
    2: { rewrite H in Heq. injection Heq as <- _. discriminate. }
    rewrite H in Heq.
    destruct (executeTool _ _ _) as [[result' | e |] w] eqn:Hex; try discriminate.
    injection Heq as <- <-. cbn [res_body] in Hbody. injection Hbody as <-.
    apply executeTool_result in Hex as (Hcmd & _ & Hshape).
    exists key, r. eexists. split; [reflexivity |]. split; [exact Hl |]. split.
    { unfold after_approve, write_row. cbn [toolRuns]. apply lookup_insert_eq. }
    cbn. repeat split; eauto.
    intros Hf. destruct Hshape as [(Ht & _) | (_ & _ & _ & msg & -> & _)]; [congruence | eauto].
  - intros req.
    destruct (executeRoute_cases req s)
      as [(code & msg & s0 & -> & _ & Hj & _) | (userId & data & -> & Hin & Hfresh)].
    { exists []. cbn [snd]. rewrite Hj, app_nil_r. auto. }
    rewrite (executeRoute_created userId data s Hin Hfresh).
    unfold written_status.
    destruct (requested (te_requiresApproval data)) eqn:Hreq.
    + cbn [snd]. rewrite journal_after_create, Hreq. eexists. split; [reflexivity |].
      written.
    + destruct (executeTool _ _ _) as [[result | e |] w]; cbn [snd].
      * rewrite journal_after_execute, Hreq. eexists. split; [reflexivity |].
        written.
      * cbn [journal with_world]. rewrite journal_after_create, Hreq.
        eexists. split; [reflexivity |]. written.
      * cbn [journal with_world]. rewrite journal_after_create, Hreq.
        eexists. split; [reflexivity |]. written.
  - intros req. pose proof (approveRoute_cases req s) as H.
    assert (∃ new, journal s = journal s ++ new ∧ Forall written_status new) as Hsame.
    { exists []. now rewrite app_nil_r. }
    destruct (ap_user req) as [userId |]; [| now rewrite H].
    destruct (uuid_in (ap_id req)) as [key |]; [| now rewrite H].
    destruct (toolRuns s !! key) as [r |]; [| now rewrite H].
    rewrite H. destruct (executeTool _ _ _) as [[result | e |] w]; cbn [snd]; auto.
    rewrite journal_after_approve. eexists. split; [reflexivity |].
    unfold written_status. written.
Qed.

(** An instance of C3 as amended: the call of an unknown tool, which
    fails, is answered with the failed result and recorded as completed. *)
Lemma routes_record_completed_witness :
  ∃ toolRun result s' r',
    executeRoute unknown_tool_request demo_server =
      (Ret (mkResponse 200 (Executed toolRun result)), s') ∧
    success result = false ∧
    toolRuns s' !! run_id toolRun = Some r' ∧
    run_status r' = completed ∧ run_result r' = Some result ∧
    is_Some (run_executedAt r') ∧ is_Some (run_completedAt r') ∧
    run_errorMessage r' = None ∧
    journal s' = [(run_id toolRun, running); (run_id toolRun, completed)].
Proof.
  eassert (executeTool "metasploit" ∅ (tick (world demo_server)) = (Ret _, _)) as E
    by (vm_compute; reflexivity).
  destruct (proj1 (routes_record_completed demo_server) "user-1"
              (mkToolExecution "metasploit" ∅ "session-1" None) _ _ eq_refl
              ltac:(vm_compute; set_solver) eq_refl E)
    as (toolRun & s' & r' & Heq & _ & Hl & Hst & Hres & Hex & Hco & Herr & _ & Hj).
  eexists toolRun, _, s', r'.
  split; [exact Heq |]. split; [vm_compute; reflexivity |].
  split; [exact Hl |]. split; [exact Hst |]. split; [exact Hres |]. split; [exact Hex |].
  split; [exact Hco |]. split; [exact Herr | exact Hj].
Defined.

(** C3 fails as stated: the call of an unknown tool fails, and the run is
    recorded as completed, with no error message. *)
Lemma failed_execution_recorded_completed :
  success <$> (toolRuns server_after_unknown_tool !! run_0 ≫= run_result) = Some false ∧
  run_status <$> toolRuns server_after_unknown_tool !! run_0 = Some completed ∧
  toolRuns server_after_unknown_tool !! run_0 ≫= run_errorMessage = None.
Proof. vm_compute. auto. Qed.

(** C4 on the approval path: a run filed as pending is, on approval,
    written as completed at once; no write shows it as running. *)
Theorem approval_skips_running :
  journal server_with_pending = [(run_0, pending)] ∧
  journal (snd (approveRoute approve_request server_with_pending)) =
    [(run_0, pending); (run_0, completed)].
Proof. vm_compute. auto. Qed.

(** C2 on a scan of a public address sent without a request for approval:
    the run is assessed as high risk, yet it is created with
    [approvalRequired = false] and executed at once. *)
Theorem high_risk_run_is_not_gated :
  run_riskLevel <$> toolRuns server_after_public_scan !! run_0 = Some high ∧
  run_approvalRequired <$> toolRuns server_after_public_scan !! run_0 = Some false ∧
  journal server_after_public_scan = [(run_0, running); (run_0, completed)].
Proof. vm_compute. auto. Qed.

(** ** Properties of the risk assessor *)

(** C6, as the code has it.  A target outside the allow-list makes the
    risk [high] for a scan, whatever the scan type and the other
    arguments; a tool name the assessor does not know is of [high] risk
    whatever the arguments; the three lookup tools are of low risk
    whatever their arguments, a target included.  The risk stored with a
    run is the one assessed when the run is created, and neither route
    changes it afterwards. *)
Theorem risk_assessed_once (toolName : string) (args : jsobj) :
  (toolName = "nmap" → isTargetAllowed args.["target"] = false →
     assessRiskLevel toolName args = high) ∧
  (toolName ≠ "nmap" → toolName ≠ "domain_intel" → toolName ≠ "whois" →
   toolName ≠ "dns_lookup" →
     assessRiskLevel toolName args = high) ∧
  (toolName = "domain_intel" ∨ toolName = "whois" ∨ toolName = "dns_lookup" →
     assessRiskLevel toolName args = low) ∧
  (∀ s userId sessionId requiresApproval resp s',
     executeRoute (mkExecuteRequest (Some userId)
                     (inr (mkToolExecution toolName args sessionId requiresApproval))) s
       = (Ret resp, s') →
     ∀ toolRun,
       (res_body resp = AwaitingApproval toolRun ∨ ∃ result, res_body resp = Executed toolRun result) →
       run_riskLevel toolRun = assessRiskLevel toolName args ∧
       run_riskLevel <$> toolRuns s' !! run_id toolRun = Some (assessRiskLevel toolName args)) ∧
  (∀ s id r, toolRuns s !! id = Some r →
     (∀ req, run_riskLevel <$> toolRuns (snd (executeRoute req s)) !! id = Some (run_riskLevel r)) ∧
     (∀ req, run_riskLevel <$> toolRuns (snd (approveRoute req s)) !! id = Some (run_riskLevel r))).
Proof.
  repeat split.
  - intros -> Hna. unfold assessRiskLevel, assessNmapRisk. rewrite Hna. reflexivity.
  - intros H0 H1 H2 H3. unfold assessRiskLevel.
    apply String.eqb_neq in H0, H1, H2, H3. now rewrite H0, H1, H2, H3.
  - intros [-> | [-> | ->]]; reflexivity.
  - destruct (executeRoute_cases
                (mkExecuteRequest (Some userId)
                   (inr (mkToolExecution toolName args sessionId requiresApproval))) s)
      as [(code & msg & s0 & Hm & _) | (userId' & data & [= <- <-] & Hin & Hfresh)].
    { rewrite Hm in H. injection H as <- _. destruct H0 as [H0 | [result H0]]; discriminate. }
    rewrite (executeRoute_created _ _ s Hin Hfresh) in H. cbn [te_requiresApproval] in H.
    destruct (requested requiresApproval).
    + injection H as <- _. destruct H0 as [[= <-] | [result [=]]]. reflexivity.
    + cbn [te_toolName te_arguments] in H.
      destruct (executeTool _ _ _) as [[result' | e |] w]; try discriminate.
      injection H as <- _. destruct H0 as [[=] | [result [= <- _]]]. reflexivity.
  - destruct (executeRoute_cases
                (mkExecuteRequest (Some userId)
                   (inr (mkToolExecution toolName args sessionId requiresApproval))) s)
      as [(code & msg & s0 & Hm & _) | (userId' & data & [= <- <-] & Hin & Hfresh)].
    { rewrite Hm in H. injection H as <- _. destruct H0 as [H0 | [result H0]]; discriminate. }
    rewrite (executeRoute_created _ _ s Hin Hfresh) in H. cbn [te_requiresApproval] in H.
    destruct (requested requiresApproval).
    + injection H as <- <-. destruct H0 as [[= <-] | [result [=]]].
      unfold after_create, write_row. cbn [toolRuns created_row new_row run_id].
      now rewrite lookup_insert_eq.
    + cbn [te_toolName te_arguments] in H.
      destruct (executeTool _ _ _) as [[result' | e |] w]; try discriminate.
      injection H as <- <-. destruct H0 as [[=] | [result [= <- _]]].
      unfold after_execute, write_row. cbn [toolRuns created_row new_row run_id].
      now rewrite lookup_insert_eq.
  - intros req. now rewrite (executeRoute_keeps_rows req s id r H).
  - intros req. destruct (approveRoute_keeps_fixed req s id r H) as (r' & -> & Hfix).
    cbn. f_equal. apply Hfix.
Qed.


(** An instance of C6 as amended: a SYN scan of a public address, and a
    tool the assessor does not know, called on a private address. *)
Lemma risk_assessed_once_witness :
  assessRiskLevel "nmap" {[ "target" := JStr "8.8.8.8"; "scanType" := JStr "syn" ]} = high ∧
  assessRiskLevel "metasploit" {[ "target" := JStr "10.0.0.1" ]} = high.
Proof.
  split.
  - apply (proj1 (risk_assessed_once "nmap"
                    {[ "target" := JStr "8.8.8.8"; "scanType" := JStr "syn" ]}));
      reflexivity.
  - apply (proj1 (proj2 (risk_assessed_once "metasploit" {[ "target" := JStr "10.0.0.1" ]})));
      discriminate.
Defined.

(** C6 fails as stated: a WHOIS lookup that carries a target outside the
    allow-list is assessed as low risk. *)
Lemma lookup_with_public_target_is_low :
  isTargetAllowed ({[ "domain" := JStr "example.com"; "target" := JStr "8.8.8.8" ]} : jsobj).["target"] = false ∧
  assessRiskLevel "whois" {[ "domain" := JStr "example.com"; "target" := JStr "8.8.8.8" ]} = low.
Proof. split; reflexivity. Qed.

(** ** Properties of a scan outside the allow-list *)

(** C7, as the code has it.  A scan whose target the guard refuses is
    rejected by the adapter before any process is started: the adapter
    throws at once, the world untouched, and [executeTool] turns this into
    a failed result of high risk.  The run itself is written before the
    adapter is called: sent without a request for approval it is created
    as running and then recorded as completed; sent with one it is created
    as pending and is not run. *)
Theorem blocked_scan_spawns_nothing (args : jsobj) :
  isTargetAllowed args.["target"] = false →
  (∀ w, executeNmap args w =
          (Throw (ErrorObj "Target not allowed. Only local/private networks are permitted."), w)) ∧
  (∀ w, ∃ r, executeTool "nmap" args w = (Ret r, tick (tick (tick w))) ∧
             success r = false ∧ tr_riskLevel r = high ∧
             error r = Some "Target not allowed. Only local/private networks are permitted.") ∧
  (∀ s userId sessionId requiresApproval,
     sessionId ∈ sessions s → toolRuns s !! uuid s (uuidReads s) = None →
     spawnLog (world (snd (executeRoute
        (mkExecuteRequest (Some userId)
           (inr (mkToolExecution "nmap" args sessionId requiresApproval))) s)))
       = spawnLog (world s) ∧
     journal (snd (executeRoute
        (mkExecuteRequest (Some userId)
           (inr (mkToolExecution "nmap" args sessionId requiresApproval))) s))
       = journal s ++
         (if requested requiresApproval
          then [(uuid s (uuidReads s), pending)]
          else [(uuid s (uuidReads s), running); (uuid s (uuidReads s), completed)])).
Proof.
  intros Hna. split; [| split].
  - intros w. unfold executeNmap. now rewrite Hna.
  - intros w. rewrite (executeTool_blocked args w Hna). eexists. split; [reflexivity |]. auto.
  - intros s userId sessionId requiresApproval Hin Hfresh.
    rewrite (executeRoute_created userId (mkToolExecution "nmap" args sessionId requiresApproval)
               s Hin Hfresh).
    cbn [te_requiresApproval te_toolName te_arguments].
    destruct (requested requiresApproval) eqn:Hreq.
    + cbn [snd]. rewrite journal_after_create. cbn [te_requiresApproval]. rewrite Hreq.
      split; reflexivity.
    + rewrite (executeTool_blocked args _ Hna). cbn [snd].
      rewrite journal_after_execute. cbn [te_requiresApproval]. rewrite Hreq.
      split; reflexivity.
Qed.

(** An instance of C7 as amended: the scan of 8.8.8.8 starts no process. *)
Lemma blocked_scan_spawns_nothing_witness :
  spawnLog (world server_after_public_scan) = spawnLog (world demo_server).
Proof.
  exact (proj1 (proj2 (proj2 (blocked_scan_spawns_nothing
                  {[ "target" := JStr "8.8.8.8"; "scanType" := JStr "tcp" ]} eq_refl))
           demo_server "user-1" "session-1" None
           ltac:(vm_compute; set_solver) eq_refl)).
Defined.

(** C7 fails as stated: the run of the refused scan is created in status
    [running]. *)
Lemma blocked_scan_run_reaches_running :
  journal server_after_public_scan = [(run_0, running); (run_0, completed)].
Proof. vm_compute. reflexivity. Qed.

(** * Further properties of the code *)

(** ** The command runner *)

Lemma on_event_keeps_cap maxSize p ev :
  within_cap maxSize p → within_cap maxSize (on_event maxSize p ev).
Proof.
  intros (H1 & H2 & H3). unfold within_cap.
  destruct ev as [data | data | code | e]; cbn [on_event]; unfold settle;
    try destruct (N.ltb_spec maxSize (p_outputSize p + N.of_nat (String.length data)));
    try destruct (p_settled p) eqn:Hp; cbn; rewrite ?string_length_app;
    repeat split; try lia; try exact H3; try discriminate;
    try (intros r Hr; rewrite ?Hp in Hr; apply H3; congruence).
  intros r [= <-]. exact H2.
Qed.

(** What the listeners keep true of the captured output. *)
Lemma listeners_keep_cap maxSize events :
  ∀ p, within_cap maxSize p → within_cap maxSize (fold_left (on_event maxSize) events p).
Proof.
  induction events as [|ev events IH]; intros p Hp; [exact Hp |].
  cbn [fold_left]. apply IH. now apply on_event_keeps_cap.
Qed.

(** X1. Whatever the child prints, the output [executeCommand] resolves
    with is never longer than the output limit. *)
Theorem executeCommand_output_within_limit (command : string) (args : list jsval)
    (options : CmdOptions) (w : World) (r : CmdResult) :
  fst (executeCommand command args options w) = Ret r →
  (N.of_nat (String.length (stdout r)) <= maxSize_of options)%N.
Proof.
  unfold executeCommand. destruct (os w _ _) as [e | events]; [discriminate |].
  destruct (p_settled (run_listeners (maxSize_of options) events)) as [[r' | e] |] eqn:Hp;
    cbn; try discriminate.
  intros [= <-].
  apply (listeners_keep_cap (maxSize_of options) events new_promise); [| exact Hp].
  repeat split; cbn; try lia. discriminate.
Qed.

(** An instance of X1: the output of a child that stays below the limit. *)
Lemma executeCommand_output_within_limit_witness :
  (N.of_nat (String.length (stdout (mkCmdResult "93.184.216.34" "" 0))) <=? 1048576)%N = true.
Proof.
  apply N.leb_le.
  exact (executeCommand_output_within_limit "dig" [JStr "+short"; JStr "example.com"; JStr "A"]
           (mkCmdOptions (JNum "5000") None) demo_world (mkCmdResult "93.184.216.34" "" 0)
           eq_refl).
Defined.

(** X2. When a chunk takes the output past the limit before the child has
    ended, the call fails with the output-limit error and [kill] is called
    on the child; the chunk is not kept. *)
Theorem executeCommand_over_limit (command : string) (args : list jsval) (options : CmdOptions)
    (w : World) (chunks later : list ChildEvent) (data : string) :
  os w (length (spawnLog w))
     (mkSpawnReq command args (js_or (opt_timeout options) (JNum "30000")))
    = Child (chunks ++ StdoutData data :: later) →
  forallb is_data chunks = true →
  (maxSize_of options < N.of_nat (String.length (stdout_of chunks ++ data)))%N →
  (N.of_nat (String.length (stdout_of chunks)) <= maxSize_of options)%N →
  fst (executeCommand command args options w) = Throw (ErrorObj "Output size limit exceeded") ∧
  In (length (spawnLog w)) (killLog (snd (executeCommand command args options w))).
Proof.
  intros Hos Hd Hover Hin. unfold executeCommand. rewrite Hos.
  unfold run_listeners. rewrite fold_left_app, (data_accumulates _ chunks); [| exact Hd | exact Hin].
  cbn [fold_left on_event p_outputSize p_stdout p_stderr p_kills p_settled new_promise].
  rewrite string_length_app, Nat2N.inj_add in Hover.
  destruct (N.ltb_spec (maxSize_of options)
              (0 + N.of_nat (String.length (stdout_of chunks)) + N.of_nat (String.length data)))
    as [_ | Hle]; [| lia].
  set (p := settle _ _).
  assert (p_settled p = Some (inr (ErrorObj "Output size limit exceeded"))) as Hp
    by (subst p; now rewrite settle_settled).
  assert (p_kills p = 1) as Hk by reflexivity.
  assert (∀ evs q, (1 ≤ p_kills q)%nat →
            (1 ≤ p_kills (fold_left (on_event (maxSize_of options)) evs q))%nat) as Hmono.
  { induction evs as [|ev evs IH]; intros q Hq; [exact Hq |]. cbn [fold_left]. apply IH.
    destruct ev; cbn [on_event]; unfold settle;
      repeat match goal with |- context [if ?b then _ else _] => destruct b end;
      repeat match goal with |- context [match ?o with Some _ => _ | None => _ end] =>
               destruct o end; cbn; lia. }
  rewrite (settled_stays _ later p _ Hp). cbn [fst snd killLog]. split; [reflexivity |].
  specialize (Hmono later p ltac:(lia)).
  destruct (p_kills (fold_left (on_event (maxSize_of options)) later p)) as [|k]; [lia |].
  cbn [repeat]. apply in_or_app. right. now left.
Qed.

(** An instance of X2: a limit of eight bytes and a child that prints more. *)
Lemma executeCommand_over_limit_witness :
  fst (executeCommand "whois" [JStr "example.com"] (mkCmdOptions (JNum "10000") (Some 8%N))
         flooding_world) = Throw (ErrorObj "Output size limit exceeded") ∧
  In (length (spawnLog flooding_world))
     (killLog (snd (executeCommand "whois" [JStr "example.com"]
                      (mkCmdOptions (JNum "10000") (Some 8%N)) flooding_world))).
Proof.
  apply (executeCommand_over_limit "whois" [JStr "example.com"]
           (mkCmdOptions (JNum "10000") (Some 8%N)) flooding_world
           [StdoutData "ok"] [Close (Some 0%Z)] "a long answer" eq_refl eq_refl).
  - vm_compute. reflexivity.
  - vm_compute. discriminate.
Defined.

(** X3. The first [close] or [error] event after output within the limit
    decides the call, whatever follows: [close] resolves it with the exit
    code it carries, zero or not, and [error] rejects it with its error. *)
Theorem executeCommand_first_final_event (command : string) (args : list jsval)
    (options : CmdOptions) (w : World) (chunks later : list ChildEvent) (ev : ChildEvent) :
  os w (length (spawnLog w))
     (mkSpawnReq command args (js_or (opt_timeout options) (JNum "30000")))
    = Child (chunks ++ ev :: later) →
  forallb is_data chunks = true →
  (N.of_nat (String.length (stdout_of chunks)) <= maxSize_of options)%N →
  (∀ code, ev = Close code →
     fst (executeCommand command args options w) =
       Ret (mkCmdResult (stdout_of chunks) (stderr_of chunks) (default 0%Z code))) ∧
  (∀ e, ev = ErrorEvent e → fst (executeCommand command args options w) = Throw e).
Proof.
  intros Hos Hd Hin. split.
  - intros code ->. unfold executeCommand. rewrite Hos. unfold run_listeners.
    rewrite fold_left_app, (data_accumulates _ chunks); [| exact Hd | exact Hin].
    cbn [fold_left on_event].
    rewrite (settled_stays _ later _
               (inl (mkCmdResult (stdout_of chunks) (stderr_of chunks) (default 0%Z code))));
      [reflexivity | now rewrite settle_settled].
  - intros e ->. unfold executeCommand. rewrite Hos. unfold run_listeners.
    rewrite fold_left_app, (data_accumulates _ chunks); [| exact Hd | exact Hin].
    cbn [fold_left on_event].
    rewrite (settled_stays _ later _ (inr e)); [reflexivity | now rewrite settle_settled].
Qed.

(** An instance of X3: a child that exits with code 2. *)
Lemma executeCommand_first_final_event_witness :
  fst (executeCommand "whois" [JStr "example.invalid"] (mkCmdOptions (JNum "10000") None)
         failing_exit_world) =
    Ret (mkCmdResult (stdout_of [StdoutData "No match for domain"])
           (stderr_of [StdoutData "No match for domain"]) (default 0%Z (Some 2%Z))).
Proof.
  apply (proj1 (executeCommand_first_final_event "whois" [JStr "example.invalid"]
                  (mkCmdOptions (JNum "10000") None) failing_exit_world
                  [StdoutData "No match for domain"] [] (Close (Some 2%Z)) eq_refl eq_refl
                  ltac:(vm_compute; discriminate)) (Some 2%Z) eq_refl).
Defined.

(** ** What the service starts *)

Lemma spawns_only_ret P {A} (a : A) : spawns_only P (ret a).
Proof. intros w. exists []. cbn. now rewrite app_nil_r. Qed.

Lemma spawns_only_throw P {A} (e : thrown) : spawns_only P (@throw World A e).
Proof. intros w. exists []. cbn. now rewrite app_nil_r. Qed.

Lemma spawns_only_now P : spawns_only P now.
Proof. intros w. exists []. cbn. now rewrite app_nil_r. Qed.

Lemma spawns_only_bind P {A B} (m : M A) (f : A → M B) :
  spawns_only P m → (∀ a, spawns_only P (f a)) → spawns_only P (bind m f).
Proof.
  intros Hm Hf w. rewrite bind_run. destruct (Hm w) as (new & Hl & Hnew).
  destruct (m w) as [[a | e |] w1]; cbn [snd] in *; eauto.
  destruct (Hf a w1) as (new' & Hl' & Hnew'). exists (new ++ new').
  rewrite Hl', Hl, app_assoc. split; [reflexivity |]. apply Forall_app. auto.
Qed.

Lemma spawns_only_try_catch P {A} (m : M A) (h : thrown → M A) :
  spawns_only P m → (∀ e, spawns_only P (h e)) → spawns_only P (try_catch m h).
Proof.
  intros Hm Hh w. unfold try_catch. destruct (Hm w) as (new & Hl & Hnew).
  destruct (m w) as [[a | e |] w1]; cbn [snd] in *; eauto.
  destruct (Hh e w1) as (new' & Hl' & Hnew'). exists (new ++ new').
  rewrite Hl', Hl, app_assoc. split; [reflexivity |]. apply Forall_app. auto.
Qed.

(** Every call of [executeCommand] is one call of [spawn]. *)
Lemma executeCommand_spawns_once command args options w :
  spawnLog (snd (executeCommand command args options w)) =
  spawnLog w ++ [mkSpawnReq command args (js_or (opt_timeout options) (JNum "30000"))].
Proof.
  unfold executeCommand. destruct (os w _ _) as [e | events]; [reflexivity |].
  now destruct (p_settled _) as [[r | e] |].
Qed.

Lemma spawns_only_executeCommand (P : SpawnReq → Prop) command args options :
  P (mkSpawnReq command args (js_or (opt_timeout options) (JNum "30000"))) →
  spawns_only P (executeCommand command args options).
Proof.
  intros HP w. eexists. split; [apply executeCommand_spawns_once |].
  apply List.Forall_cons; [exact HP | apply List.Forall_nil].
Qed.

Lemma permitted_whois domain :
  permitted_spawn (mkSpawnReq "whois" [domain] (js_or (JNum "10000") (JNum "30000"))).
Proof. right; left. split; [reflexivity |]. now exists domain. Qed.

Lemma permitted_dig domain recordType :
  permitted_spawn (mkSpawnReq "dig" [JStr "+short"; domain; recordType]
                     (js_or (JNum "5000") (JNum "30000"))).
Proof. right; right. split; [reflexivity |]. now exists domain, recordType. Qed.

Create HintDb spawns.
#[local] Hint Resolve spawns_only_ret spawns_only_throw spawns_only_now : spawns.
#[local] Hint Extern 2 (spawns_only _ (bind _ _)) =>
  apply spawns_only_bind; [| intros ?] : spawns.
#[local] Hint Extern 2 (spawns_only _ (try_catch _ _)) =>
  apply spawns_only_try_catch; [| intros ?] : spawns.
#[local] Hint Extern 2 (spawns_only _ (executeCommand _ _ _)) =>
  apply spawns_only_executeCommand; first [apply permitted_whois | apply permitted_dig] : spawns.

Lemma spawns_executeDNSLookup domain recordType :
  spawns_only permitted_spawn (executeDNSLookup domain recordType).
Proof. unfold executeDNSLookup. auto 10 with spawns. Qed.

Lemma spawns_executeWhois domain : spawns_only permitted_spawn (executeWhois domain).
Proof. unfold executeWhois. auto 10 with spawns. Qed.

Lemma spawns_executeNmap options : spawns_only permitted_spawn (executeNmap options).
Proof.
  unfold executeNmap, parseNmapOutput.
  destruct (isTargetAllowed options.["target"]) eqn:Hok; cbn [negb]; [| auto with spawns].
  apply spawns_only_bind; [| intros ?; auto 10 with spawns].
  apply spawns_only_executeCommand. left. split; [reflexivity |]. now exists options.
Qed.

Lemma spawns_enumerateLoop subs domain :
  ∀ found, spawns_only permitted_spawn (enumerateLoop subs domain found).
Proof.
  induction subs as [|sub subs IH]; intros found; cbn [enumerateLoop]; [auto with spawns |].
  apply spawns_only_bind; [| exact IH].
  apply spawns_only_try_catch; [| auto with spawns].
  apply spawns_only_bind; [apply spawns_executeDNSLookup |].
  intros r. destruct (0 <? _)%nat; auto with spawns.
Qed.

Lemma spawns_guarded {A} cond fallback (m : M A) :
  spawns_only permitted_spawn m → spawns_only permitted_spawn (guarded cond fallback m).
Proof. intros Hm. unfold guarded. destruct cond; auto 10 with spawns. Qed.

Lemma spawns_executeDomainIntel options :
  spawns_only permitted_spawn (executeDomainIntel options).
Proof.
  unfold executeDomainIntel, enumerateSubdomains.
  repeat (apply spawns_only_bind; [| intros ?]);
    auto using spawns_guarded, spawns_executeDNSLookup, spawns_executeWhois with spawns.
  apply spawns_guarded.
  apply spawns_only_bind; [apply spawns_enumerateLoop | intros ?; auto 10 with spawns].
Qed.

Lemma spawns_dispatch toolName args : spawns_only permitted_spawn (dispatch toolName args).
Proof.
  unfold dispatch.
  repeat match goal with |- context [String.eqb ?a ?b] => destruct (String.eqb a b) end;
    auto 10 using spawns_executeNmap, spawns_executeDomainIntel, spawns_executeWhois,
      spawns_executeDNSLookup with spawns.
Qed.

Lemma spawns_executeTool toolName args : spawns_only permitted_spawn (executeTool toolName args).
Proof.
  unfold executeTool, succeeded, caught.
  auto 12 using spawns_dispatch with spawns.
Qed.

(** X4. Whatever the tool name and the arguments, and whatever request
    reaches the two routes, the only processes started are the scanner on
    a target the guard accepts, with the argument list of
    [buildNmapArgs], the WHOIS client on one argument and the DNS client
    with [+short], a name and a record type. *)
Theorem only_permitted_commands_are_spawned :
  (∀ toolName args, spawns_only permitted_spawn (executeTool toolName args)) ∧
  (∀ req s, ∃ new,
     spawnLog (world (snd (executeRoute req s))) = spawnLog (world s) ++ new ∧
     Forall permitted_spawn new) ∧
  (∀ req s, ∃ new,
     spawnLog (world (snd (approveRoute req s))) = spawnLog (world s) ++ new ∧
     Forall permitted_spawn new).
Proof.
  split; [exact spawns_executeTool |]. split.
  - intros req s.
    destruct (executeRoute_cases req s)
      as [(code & msg & s' & -> & _ & _ & Hsp) | (userId & data & -> & Hin & Hfresh)].
    { exists []. cbn [snd]. now rewrite Hsp, app_nil_r. }
    rewrite (executeRoute_created userId data s Hin Hfresh).
    destruct (requested (te_requiresApproval data)).
    { exists []. cbn. now rewrite app_nil_r. }
    destruct (spawns_executeTool (te_toolName data) (te_arguments data) (tick (world s)))
      as (new & Hl & Hnew).
    exists new. split; [| exact Hnew].
    destruct (executeTool _ _ _) as [[result | e |] w]; cbn [snd] in *; exact Hl.
  - intros req s. pose proof (approveRoute_cases req s) as H.
    destruct (ap_user req) as [userId |].
    2: { rewrite H. exists []. cbn. now rewrite app_nil_r. }
    destruct (uuid_in (ap_id req)) as [key |].
    2: { rewrite H. exists []. cbn. now rewrite app_nil_r. }
    destruct (toolRuns s !! key) as [r |].
    2: { rewrite H. exists []. cbn. now rewrite app_nil_r. }
    rewrite H.
    destruct (spawns_executeTool (run_toolName r) (run_arguments r) (world s))
      as (new & Hl & Hnew).
    exists new. split; [| exact Hnew].
    destruct (executeTool _ _ _) as [[result | e |] w]; cbn [snd] in *; exact Hl.
Qed.

(** ** Passive enumeration of subdomains *)

Lemma executeDNSLookup_spawns_once domain recordType w :
  spawnLog (snd (executeDNSLookup domain recordType w)) =
  spawnLog w ++ [mkSpawnReq "dig" [JStr "+short"; domain;
                                   match recordType with JUndefined => JStr "A" | v => v end]
                   (JNum "5000")].
Proof.
  unfold executeDNSLookup. rewrite bind_run.
  pose proof (executeCommand_spawns_once "dig"
                [JStr "+short"; domain; match recordType with JUndefined => JStr "A" | v => v end]
                (mkCmdOptions (JNum "5000") None) w) as H.
  destruct (executeCommand _ _ _ w) as [[r | e |] w1]; exact H.
Qed.

(** A lookup for A records is one call of [spawn], and it returns the
    lines of the answer to that call. *)
Lemma executeDNSLookup_answer (name : string) (w : World) :
  os (snd (executeDNSLookup (JStr name) (JStr "A") w)) = os w ∧
  spawnLog (snd (executeDNSLookup (JStr name) (JStr "A") w)) = spawnLog w ++ [dig_request name] ∧
  match fst (executeDNSLookup (JStr name) (JStr "A") w) with
  | Ret r => lookup_answer (os w) (length (spawnLog w)) name = Some (dns_records r)
  | Throw _ => lookup_answer (os w) (length (spawnLog w)) name = None
  | Hang => True
  end.
Proof.
  unfold executeDNSLookup, lookup_answer. rewrite bind_run. unfold executeCommand.
  change (mkSpawnReq "dig" [JStr "+short"; JStr name; JStr "A"]
            (js_or (opt_timeout (mkCmdOptions (JNum "5000") None)) (JNum "30000")))
    with (dig_request name).
  change (maxSize_of (mkCmdOptions (JNum "5000") None)) with 1048576%N.
  destruct (os w (length (spawnLog w)) (dig_request name)) as [e | events]; [now cbn |].
  destruct (p_settled (run_listeners 1048576 events)) as [[r | e] |]; now cbn.
Qed.

Lemma enumerateLoop_answers subs domain :
  ∀ found w,
    match enumerateLoop subs domain found w with
    | (Ret found', w') =>
        spawnLog w' =
          spawnLog w ++ map (fun sub => dig_request (sub +:+ "." +:+ js_to_string domain)) subs ∧
        found' = found ++ answering (os w) (length (spawnLog w)) domain subs
    | (Throw _, _) => False
    | (Hang, _) => True
    end.
Proof.
  induction subs as [|sub subs IH]; intros found w; cbn [enumerateLoop answering].
  - rewrite ret_run. cbn. now rewrite !app_nil_r.
  - rewrite bind_run. unfold try_catch. rewrite bind_run.
    destruct (executeDNSLookup_answer (sub +:+ "." +:+ js_to_string domain) w)
      as (Hos & Hsp & Hans).
    assert (length (spawnLog (snd (executeDNSLookup (JStr (sub +:+ "." +:+ js_to_string domain))
                                     (JStr "A") w))) = S (length (spawnLog w))) as Hlen
      by (rewrite Hsp, length_app; cbn; lia).
    destruct (executeDNSLookup _ _ w) as [[r | e |] w1]; cbn [fst snd] in *; [| | exact I].
    + rewrite Hans.
      destruct (dns_records r) as [|record records] eqn:Hr; cbn [length Nat.ltb Nat.leb];
        rewrite ret_run.
      * specialize (IH found w1). rewrite Hos, Hlen in IH.
        destruct (enumerateLoop subs domain found w1) as [[found' | e |] w']; auto.
        destruct IH as (Hl & ->). split; [| reflexivity].
        rewrite Hl, Hsp, <- app_assoc. reflexivity.
      * specialize (IH (found ++ [(sub +:+ "." +:+ js_to_string domain, record :: records)]) w1).
        rewrite Hos, Hlen in IH.
        destruct (enumerateLoop subs domain _ w1) as [[found' | e |] w']; auto.
        destruct IH as (Hl & ->). split; [| now rewrite <- app_assoc].
        rewrite Hl, Hsp, <- app_assoc. reflexivity.
    + rewrite Hans, ret_run. specialize (IH found w1). rewrite Hos, Hlen in IH.
      destruct (enumerateLoop subs domain found w1) as [[found' | e' |] w']; auto.
      destruct IH as (Hl & ->). split; [| reflexivity].
      rewrite Hl, Hsp, <- app_assoc. reflexivity.
Qed.

(** X5. [enumerateSubdomains] never throws, whether lookups fail or not.
    When it returns it has made exactly one DNS lookup for A records per
    candidate prefix, in the order of the list, and nothing else; and
    what it reports, under the method [passive_dns], are exactly the
    candidates whose lookup returned at least one record, in the order of
    the list, each with the records its own lookup returned. *)
Theorem enumerateSubdomains_is_passive (domain : jsval) (w : World) :
  (∀ e, fst (enumerateSubdomains domain w) ≠ Throw e) ∧
  (∀ r w', enumerateSubdomains domain w = (Ret r, w') →
     spawnLog w' =
       spawnLog w ++
       map (fun sub => dig_request (sub +:+ "." +:+ js_to_string domain)) commonSubdomains ∧
     sub_domain r = domain ∧ sub_method r = "passive_dns" ∧
     sub_subdomains r = answering (os w) (length (spawnLog w)) domain commonSubdomains).
Proof.
  unfold enumerateSubdomains. rewrite bind_run.
  pose proof (enumerateLoop_answers commonSubdomains domain [] w) as H.
  destruct (enumerateLoop commonSubdomains domain [] w) as [[found | e |] w1];
    [| contradiction | split; [discriminate | intros ? ? [=]]].
  destruct H as (Hl & Hf). cbn [app] in Hf. subst found. split; [discriminate |].
  rewrite bind_run. cbn [now]. cbv beta iota. rewrite ret_run.
  set (found := answering (os w) (length (spawnLog w)) domain commonSubdomains).
  intros r w' Heq.
  assert (r = mkSubdomainResult domain found "passive_dns" (clock w1 (clockReads w1)) ∧
          w' = tick w1) as [-> ->] by (split; congruence).
  split; [exact Hl |]. split; [reflexivity |]. split; reflexivity.
Qed.

(** An instance of X5: in a world where only www.example.com resolves,
    every candidate is looked up and that one is reported. *)
Lemma enumerateSubdomains_is_passive_witness :
  ∃ r w',
    enumerateSubdomains (JStr "example.com") sparse_dns_world = (Ret r, w') ∧
    sub_subdomains r = [("www.example.com", ["93.184.216.34"])] ∧
    spawnLog w' =
      map (fun sub => dig_request (sub +:+ "." +:+ js_to_string (JStr "example.com")))
        commonSubdomains.
Proof.
  eassert (enumerateSubdomains (JStr "example.com") sparse_dns_world = (Ret _, _)) as E
    by (vm_compute; reflexivity).
  destruct (proj2 (enumerateSubdomains_is_passive (JStr "example.com") sparse_dns_world) _ _ E)
    as (Hl & _ & _ & Hsub).
  eexists _, _. split; [exact E |]. split; [rewrite Hsub; vm_compute; reflexivity | exact Hl].
Defined.

(** ** Domain intelligence *)

Lemma guarded_cases {A} cond fallback (m : M A) w :
  (cond = false ∧ guarded cond fallback m w = (Ret Absent, w)) ∨
  (cond = true ∧
   ((∃ a w', m w = (Ret a, w') ∧ guarded cond fallback m w = (Ret (Present a), w')) ∨
    (∃ e w', m w = (Throw e, w') ∧
             guarded cond fallback m w = (Ret (Failed (message_or fallback e)), w')) ∨
    (∃ w', m w = (Hang, w') ∧ guarded cond fallback m w = (Hang, w')))).
Proof.
  unfold guarded. destruct cond; [right | left; auto]. split; [reflexivity |].
  unfold try_catch. rewrite bind_run.
  destruct (m w) as [[a | e |] w']; eauto 10.
Qed.

(** What [executeDomainIntel] returns: it never throws, and each part of
    the result is absent exactly when its flag switches it off. *)
Lemma executeDomainIntel_result options w :
  match executeDomainIntel options w with
  | (Ret d, _) =>
      di_domain d = options.["domain"] ∧
      (di_dns d = Absent ↔ options.["includeDNS"] = JBool false) ∧
      (di_whois d = Absent ↔ truthy options.["includeWhois"] = false) ∧
      (di_subdomains d = Absent ↔ truthy options.["includeSubdomains"] = false)
  | (Throw _, _) => False
  | (Hang, _) => True
  end.
Proof.
  unfold executeDomainIntel. rewrite bind_run. cbn [now]. cbv beta iota.
  rewrite bind_run.
  destruct (guarded_cases (negb (bool_decide (options.["includeDNS"] = JBool false)))
              "DNS lookup failed" (executeDNSLookup options.["domain"] (JStr "A")) (tick w))
    as [(Hc1 & ->) | (Hc1 & [(a1 & w1 & _ & ->) | [(e1 & w1 & _ & ->) | (w1 & _ & ->)]])];
    try exact I; cbv beta iota; rewrite bind_run.
  all: match goal with |- context [guarded _ "WHOIS lookup failed" ?m ?w0] =>
         destruct (guarded_cases (truthy options.["includeWhois"]) "WHOIS lookup failed" m w0)
           as [(Hc2 & ->) | (Hc2 & [(a2 & w2 & _ & ->) | [(e2 & w2 & _ & ->) | (w2 & _ & ->)]])]
       end; try exact I; cbv beta iota; rewrite bind_run.
  all: match goal with |- context [guarded _ "Subdomain enumeration failed" ?m ?w0] =>
         destruct (guarded_cases (truthy options.["includeSubdomains"])
                     "Subdomain enumeration failed" m w0)
           as [(Hc3 & ->) | (Hc3 & [(a3 & w3 & _ & ->) | [(e3 & w3 & _ & ->) | (w3 & _ & ->)]])]
       end; try exact I; cbv beta iota; rewrite ret_run; cbn.
  all: rewrite ?negb_true_iff, ?negb_false_iff in Hc1.
  all: first [apply bool_decide_eq_true in Hc1 | apply bool_decide_eq_false in Hc1].
  all: repeat split; try congruence; try discriminate; try (intros; assumption);
         try (intros; contradiction).
Qed.

(** X6. A [domain_intel] call never fails as a whole: whenever
    [executeTool] returns for it, the result has [success = true], no
    error and risk [low], even when every lookup failed; failed lookups
    are recorded inside the data.  The DNS part is left out exactly when
    [includeDNS] is [false], the WHOIS and the subdomain parts exactly
    when their flags are missing or falsy. *)
Theorem domain_intel_always_succeeds (args : jsobj) (w w' : World) (r : ToolResult) :
  executeTool "domain_intel" args w = (Ret r, w') →
  success r = true ∧ error r = None ∧ tr_riskLevel r = low ∧
  ∃ d, data r = Some (DDomainIntel d) ∧
       di_domain d = args.["domain"] ∧
       (di_dns d = Absent ↔ args.["includeDNS"] = JBool false) ∧
       (di_whois d = Absent ↔ truthy args.["includeWhois"] = false) ∧
       (di_subdomains d = Absent ↔ truthy args.["includeSubdomains"] = false).
Proof.
  rewrite executeTool_unfold.
  assert (dispatch "domain_intel" args (tick w) =
          bind (executeDomainIntel args) (fun result => ret (DDomainIntel result, low)) (tick w))
    as -> by reflexivity.
  rewrite bind_run.
  pose proof (executeDomainIntel_result args (tick w)) as H.
  destruct (executeDomainIntel args (tick w)) as [[d | e |] w1]; [| contradiction | discriminate].
  rewrite ret_run, succeeded_eq. intros [= <- _]. cbn. repeat split; eauto.
Qed.

(** An instance of X6: in a world where no command can be started, a call
    with all three parts switched on still succeeds. *)
Lemma domain_intel_always_succeeds_witness :
  success (match fst (executeTool "domain_intel"
                        {[ "domain" := JStr "example.com"; "includeWhois" := JBool true;
                           "includeSubdomains" := JBool true ]} broken_world) with
           | Ret r => r
           | _ => mkToolResult false None None high 0 (mkAuditLog "" ∅ 0 (AuditError ""))
           end) = true.
Proof.
  eassert (executeTool "domain_intel"
             {[ "domain" := JStr "example.com"; "includeWhois" := JBool true;
                "includeSubdomains" := JBool true ]} broken_world = (Ret _, _)) as E
    by (vm_compute; reflexivity).
  rewrite E. cbn [fst].
  exact (proj1 (domain_intel_always_succeeds _ _ _ _ E)).
Defined.

(** ** Risk levels *)

Lemma dispatch_risk toolName args w d risk w' :
  dispatch toolName args w = (Ret (d, risk), w') → risk = assessRiskLevel toolName args.
Proof.
  unfold dispatch, assessRiskLevel.
  repeat match goal with |- context [String.eqb ?a ?b] => destruct (String.eqb a b) end;
    try (rewrite bind_run;
         match goal with |- context [match ?m with _ => _ end] => destruct m as [[? | ? |] ?] end;
         rewrite ?ret_run; intros [=]; congruence).
  discriminate.
Qed.

(** X7. The risk level in a result of [executeTool] agrees with the risk
    assessor when the tool succeeded, and is [high] when it failed,
    whichever tool it was. *)
Theorem result_risk_follows_assessor (toolName : string) (args : jsobj) (w w' : World)
    (r : ToolResult) :
  executeTool toolName args w = (Ret r, w') →
  tr_riskLevel r = if success r then assessRiskLevel toolName args else high.
Proof.
  rewrite executeTool_unfold.
  destruct (dispatch toolName args (tick w)) as [[[d risk] | e |] w1] eqn:Hd.
  - rewrite succeeded_eq. intros [= <- _]. cbn. now apply dispatch_risk in Hd.
  - rewrite caught_eq. intros [= <- _]. reflexivity.
  - discriminate.
Qed.

(** An instance of X7: a DNS lookup in the demo world. *)
Lemma result_risk_follows_assessor_witness :
  tr_riskLevel (match fst (executeTool "dns_lookup" {[ "domain" := JStr "example.com" ]}
                             demo_world) with
                | Ret r => r
                | _ => mkToolResult false None None high 0 (mkAuditLog "" ∅ 0 (AuditError ""))
                end) = low.
Proof.
  eassert (executeTool "dns_lookup" {[ "domain" := JStr "example.com" ]} demo_world
             = (Ret _, _)) as E by (vm_compute; reflexivity).
  rewrite E. cbn [fst].
  exact (result_risk_follows_assessor _ _ _ _ _ E).
Defined.

(** A scan of a target the guard accepts is never of high risk. *)
Lemma allowed_scan_risk (options : jsobj) :
  isTargetAllowed options.["target"] = true →
  assessNmapRisk options =
    if strict_eq_str options.["scanType"] "syn" || strict_eq_str options.["scanType"] "udp"
       || strict_eq_str options.["scanType"] "service"
    then medium else low.
Proof.
  intros Hok. unfold assessNmapRisk. rewrite Hok. cbn [negb].
  destruct (strict_eq_str options.["scanType"] "syn");
    destruct (strict_eq_str options.["scanType"] "udp");
    destruct (strict_eq_str options.["scanType"] "service"); reflexivity.
Qed.

(** X8. In the argument list of a scan the target is the last argument,
    and every argument before it is one the code writes itself or the
    caller's [ports] value.  A scan type that is none of the five the
    code knows, a missing one included, adds nothing to the list: the
    list is then the fixed opening, the port arguments, the output format
    and the target. *)
Theorem buildNmapArgs_caller_text (options : jsobj) :
  (∃ front, buildNmapArgs options = front ++ [options.["target"]] ∧
            Forall (fun a => In a fixed_nmap_args ∨ a = options.["ports"]) front) ∧
  (options.["scanType"] ≠ JStr "ping" → options.["scanType"] ≠ JStr "tcp" →
   options.["scanType"] ≠ JStr "syn" → options.["scanType"] ≠ JStr "udp" →
   options.["scanType"] ≠ JStr "service" →
   buildNmapArgs options =
     [JStr "-T2"; JStr "--max-rate"; JStr "100"; JStr "--max-retries"; JStr "1"]
     ++ (if truthy options.["ports"] then [JStr "-p"; options.["ports"]]
         else [JStr "--top-ports"; JStr "100"])
     ++ [JStr "-oX"; JStr "-"; options.["target"]]).
Proof.
  split.
  - unfold buildNmapArgs, scanTypeFlag, fixed_nmap_args.
    eexists. split.
    + reflexivity.
    + destruct (truthy options.["ports"]);
        repeat match goal with |- context [strict_eq_str ?v ?s] => destruct (strict_eq_str v s) end;
        cbn [app]; repeat (apply List.Forall_cons; [cbn; tauto |]); apply List.Forall_nil.
  - intros H1 H2 H3 H4 H5.
    assert (∀ lit, options.["scanType"] ≠ JStr lit → strict_eq_str options.["scanType"] lit = false)
      as Hne.
    { intros lit Hlit. unfold strict_eq_str. destruct (options.["scanType"]); try reflexivity.
      apply String.eqb_neq. congruence. }
    unfold buildNmapArgs, scanTypeFlag.
    rewrite (Hne _ H1), (Hne _ H2), (Hne _ H3), (Hne _ H4), (Hne _ H5).
    now destruct (truthy options.["ports"]).
Qed.

(** An instance of X8: a scan type the code does not know. *)
Lemma buildNmapArgs_caller_text_witness :
  buildNmapArgs {[ "target" := JStr "192.168.1.10"; "scanType" := JStr "aggressive" ]} =
    [JStr "-T2"; JStr "--max-rate"; JStr "100"; JStr "--max-retries"; JStr "1";
     JStr "--top-ports"; JStr "100"; JStr "-oX"; JStr "-"; JStr "192.168.1.10"].
Proof.
  assert (∀ lit, String.eqb "aggressive" lit = false →
            ({[ "target" := JStr "192.168.1.10"; "scanType" := JStr "aggressive" ]} : jsobj)
              .["scanType"] ≠ JStr lit) as Hne.
  { intros lit Hlit Heq. vm_compute in Heq. injection Heq as <-. discriminate Hlit. }
  exact (proj2 (buildNmapArgs_caller_text
                  {[ "target" := JStr "192.168.1.10"; "scanType" := JStr "aggressive" ]})
           (Hne "ping" eq_refl) (Hne "tcp" eq_refl) (Hne "syn" eq_refl) (Hne "udp" eq_refl)
           (Hne "service" eq_refl)).
Defined.

(** ** From a message to a scan *)

(** X9. The scan type read off a message is always one the scanner knows:
    a scan built from it carries exactly one scan flag, and on a target
    the guard accepts its risk is medium when the message mentions
    [service], [version], [syn] or [udp] and low otherwise. *)
Theorem message_scan_type_is_known (message : string) (options : jsobj) :
  options.["scanType"] = JStr (determineScanType message) →
  (∃ flag, scanTypeFlag options.["scanType"] = [flag]) ∧
  (isTargetAllowed options.["target"] = true →
   assessNmapRisk options =
     if includes message "service" || includes message "version"
        || includes message "syn" || includes message "udp"
     then medium else low).
Proof.
  intros Hst. split.
  - rewrite Hst. unfold determineScanType.
    repeat match goal with |- context [if ?b then _ else _] =>
             lazymatch b with
             | context [includes] => destruct b
             end
           end; cbn; eauto.
  - intros Hok. rewrite (allowed_scan_risk options Hok), Hst. unfold determineScanType.
    destruct (includes message "service"); [reflexivity |].
    destruct (includes message "version"); [reflexivity |].
    destruct (includes message "syn"); [reflexivity |].
    destruct (includes message "udp"); [reflexivity |].
    destruct (includes message "ping"); reflexivity.
Qed.

(** An instance of X9: a request for a SYN scan of a private address. *)
Lemma message_scan_type_is_known_witness :
  assessNmapRisk {[ "target" := JStr "192.168.1.10";
                    "scanType" := JStr (determineScanType "run a syn scan of 192.168.1.10") ]}
    = medium.
Proof.
  exact (proj2 (message_scan_type_is_known "run a syn scan of 192.168.1.10"
                  {[ "target" := JStr "192.168.1.10";
                     "scanType" := JStr (determineScanType "run a syn scan of 192.168.1.10") ]}
                  eq_refl) eq_refl).
Defined.

(** ** The records of a DNS lookup *)



Lemma trimStart_blank (s : string) : blank s → trimStart s = "".
Proof.
  unfold blank. induction s as [|c s IH]; cbn; [reflexivity |].
  intros H. inversion H as [|? ? Hc Hs]; subst. rewrite Hc. now apply IH.
Qed.



Lemma string_of_list_inj_nil (l : list ascii) : string_of_list_ascii l = "" → l = [].
Proof. destruct l; [reflexivity | discriminate]. Qed.




(** ** The parsed part of a WHOIS record *)

Lemma split_lines_app (t line : string) :
  ∀ acc, split_lines (t +:+ String "010" line) acc = split_lines t acc ++ split_lines line "".
Proof.
  induction t as [|c t IH]; intros acc; cbn [String.append split_lines].
  - reflexivity.
  - destruct (Ascii.eqb c "010"); [now rewrite IH | apply IH].
Qed.

Lemma split_lines_single (line : string) :
  one_line line → ∀ acc, split_lines line acc = [acc +:+ line].
Proof.
  unfold one_line.
  assert (∀ s, s +:+ "" = s) as Hnil by (induction s as [|c s IH]; cbn; congruence).
  induction line as [|c line IH]; intros Hline acc; cbn [split_lines].
  - now rewrite Hnil.
  - cbn in Hline. destruct (Ascii.eqb_spec c "010") as [-> | Hne]; [exfalso; auto |].
    rewrite IH by (intros H; apply Hline; now right).
    now rewrite string_app_assoc.
Qed.

Lemma whois_lines_sound (lines : list string) :
  ∀ parsed key value,
    fold_left whois_line lines parsed !! key = Some value →
    parsed !! key = Some value ∨
    (key ≠ "__proto__" ∧ ∃ line, In line lines ∧ whois_entry line = Some (key, value)).
Proof.
  induction lines as [|line lines IH]; intros parsed key value H; cbn [fold_left] in H;
    [now left |].
  apply IH in H as [H | (Hk & l & Hin & Hl)]; [| right; split; [exact Hk |]; exists l; cbn; auto].
  unfold whois_line in H. destruct (whois_entry line) as [[k v] |] eqn:Hl; [| now left].
  unfold assign in H. destruct (String.eqb_spec k "__proto__") as [-> | Hne]; [now left |].
  destruct (decide (k = key)) as [-> | Hkey].
  - rewrite lookup_insert_eq in H. injection H as ->. right. split; [exact Hne |].
    exists line. cbn. auto.
  - rewrite lookup_insert_ne in H by exact Hkey. now left.
Qed.

(** X11. Every entry of the parsed part of a WHOIS record comes from a
    line of the text with a colon after its first character: the key is
    what stands before the first colon, trimmed and in lower case, the
    value what stands after it, trimmed and not empty.  Of two lines with
    the same key the later one wins: the entry of the last line of a text
    is in the result. *)
Theorem whoisParsed_entries (whoisText : string) :
  (∀ key value,
     whoisParsed whoisText !! key = Some value →
     value ≠ "" ∧ key ≠ "__proto__" ∧
     ∃ line before after,
       In line (split_lines whoisText "") ∧ cut_at_colon line = Some (before, after) ∧
       before ≠ "" ∧ key = toLowerCase (trim before) ∧ value = trim after) ∧
  (∀ line key value,
     one_line line → whois_entry line = Some (key, value) → key ≠ "__proto__" →
     whoisParsed (whoisText +:+ String "010" line) !! key = Some value).
Proof.
  split.
  - intros key value H. unfold whoisParsed in H.
    apply whois_lines_sound in H as [H | (Hk & line & Hin & Hl)]; [discriminate |].
    unfold whois_entry in Hl.
    destruct (cut_at_colon line) as [[before after] |] eqn:Hcut; [| discriminate].
    destruct (Nat.ltb_spec 0 (String.length before)) as [Hlen | Hlen]; [| discriminate].
    destruct (String.eqb_spec (trim after) "") as [He | Hne]; [discriminate |].
    cbn [negb] in Hl. injection Hl as <- <-.
    repeat split; [exact Hne | exact Hk |].
    exists line, before, after. repeat split; auto.
    intros ->. cbn in Hlen. lia.
  - intros line key value Hline Hentry Hk. unfold whoisParsed.
    rewrite split_lines_app, fold_left_app, (split_lines_single line Hline).
    cbn [String.append fold_left]. unfold whois_line. rewrite Hentry. unfold assign.
    apply String.eqb_neq in Hk. rewrite Hk. apply lookup_insert_eq.
Qed.

(** An instance of X11: a later registrar line replaces an earlier one. *)
Lemma whoisParsed_entries_witness :
  whoisParsed ("Registrar: First" +:+ String "010" "REGISTRAR:  Second ") !! "registrar"
    = Some "Second".
Proof.
  apply (proj2 (whoisParsed_entries "Registrar: First") "REGISTRAR:  Second " "registrar" "Second").
  - vm_compute. intros [H | [H | [H | [H | [H | [H | [H | [H | [H | [H | H]]]]]]]]]];
      try discriminate. repeat (destruct H as [H | H]; [discriminate |]). exact H.
  - reflexivity.
  - discriminate.
Defined.

(** ** The routes and the ledger *)

Lemma apply_update_id u r : run_id (apply_update u r) = run_id r.
Proof. reflexivity. Qed.

(** X14. The routes keep the ledger in order: when every row is stored
    under its own id, this is still so after either route, whatever the
    request and however the tool ends; and a row that exists is never
    removed. *)
Theorem routes_keep_ledger_keyed (s : Server) :
  ledger_keyed s →
  (∀ req, ledger_keyed (snd (executeRoute req s)) ∧
          ∀ id, is_Some (toolRuns s !! id) → is_Some (toolRuns (snd (executeRoute req s)) !! id)) ∧
  (∀ req, ledger_keyed (snd (approveRoute req s)) ∧
          ∀ id, is_Some (toolRuns s !! id) → is_Some (toolRuns (snd (approveRoute req s)) !! id)).
Proof.
  intros Hk. split; intros req; split.
  - destruct (executeRoute_cases req s)
      as [(code & msg & s' & -> & Ht & _) | (userId & data & -> & Hin & Hfresh)].
    { intros id r. cbn [snd]. rewrite Ht. apply Hk. }
    rewrite (executeRoute_created userId data s Hin Hfresh).
    assert (∀ row, run_id row = uuid s (uuidReads s) →
              ∀ id r, <[uuid s (uuidReads s) := row]> (toolRuns s) !! id = Some r → run_id r = id)
      as Hins.
    { intros row Hrow id r. destruct (decide (uuid s (uuidReads s) = id)) as [<- | Hne].
      - rewrite lookup_insert_eq. congruence.
      - rewrite lookup_insert_ne by exact Hne. apply Hk. }
    destruct (requested (te_requiresApproval data)).
    + intros id r. cbn [snd after_create write_row toolRuns]. now apply Hins.
    + destruct (executeTool _ _ _) as [[result | e |] w]; intros id r;
        cbn [snd after_execute after_create write_row toolRuns with_world];
        rewrite ?insert_insert_eq; now apply Hins.
  - intros id [r Hr]. rewrite (executeRoute_keeps_rows req s id r Hr). eauto.
  - intros id r. pose proof (approveRoute_cases req s) as H.
    destruct (ap_user req) as [userId |]; [| rewrite H; apply Hk].
    destruct (uuid_in (ap_id req)) as [key |]; [| rewrite H; apply Hk].
    destruct (toolRuns s !! key) as [r0 |] eqn:Hl; [| rewrite H; apply Hk].
    rewrite H. destruct (executeTool _ _ _) as [[result | e |] w]; cbn [snd]; try apply Hk.
    unfold after_approve, write_row. cbn [toolRuns with_world].
    destruct (decide (key = id)) as [Heq | Hne].
    + rewrite Heq, lookup_insert_eq. intros [= <-]. rewrite apply_update_id.
      rewrite Heq in Hl. now apply Hk.
    + rewrite lookup_insert_ne by exact Hne. apply Hk.
  - intros id [r Hr]. destruct (approveRoute_keeps_fixed req s id r Hr) as (r' & -> & _). eauto.
Qed.

(** An instance of X14: the demo server, which has no row yet. *)
Lemma routes_keep_ledger_keyed_witness :
  ledger_keyed (snd (executeRoute whois_request demo_server)).
Proof.
  apply (proj1 (routes_keep_ledger_keyed demo_server
                  ltac:(intros id r H; vm_compute in H; discriminate))).
Defined.

(** X15. A call sent with a request for approval is filed and not run:
    the run is stored as pending with [approvalRequired = true] and no
    result, and no process is started.  When it is approved afterwards, in
    a world whose children all end, the tool runs and the run is recorded
    as completed, with the approver and the result; the ledger shows it as
    pending and then as completed. *)
Theorem gated_run_waits_for_approval (s : Server) (userId approver : string)
    (data : ToolExecution) :
  requested (te_requiresApproval data) = true →
  te_sessionId data ∈ sessions s → toolRuns s !! uuid s (uuidReads s) = None →
  settling (world s) →
  ∃ row s1 result s2 row2,
    executeRoute (mkExecuteRequest (Some userId) (inr data)) s =
      (Ret (mkResponse 200 (AwaitingApproval row)), s1) ∧
    toolRuns s1 !! run_id row = Some row ∧
    run_status row = pending ∧ run_approvalRequired row = true ∧ run_result row = None ∧
    spawnLog (world s1) = spawnLog (world s) ∧
    approveRoute (mkApproveRequest (Some approver) (run_id row)) s1 =
      (Ret (mkResponse 200 (Approved result)), s2) ∧
    fst (executeTool (te_toolName data) (te_arguments data) (world s1)) = Ret result ∧
    toolRuns s2 !! run_id row = Some row2 ∧
    run_status row2 = completed ∧ run_approvalRequired row2 = true ∧
    run_approvedBy row2 = Some approver ∧ run_result row2 = Some result ∧
    journal s2 = journal s ++ [(run_id row, pending); (run_id row, completed)].
Proof.
  intros Hreq Hin Hfresh Hs.
  pose proof (executeRoute_created userId data s Hin Hfresh) as He. rewrite Hreq in He.
  assert (toolRuns (after_create data s) !! uuid s (uuidReads s) = Some (created_row data s))
    as Hl by (unfold after_create, write_row; cbn [toolRuns]; apply lookup_insert_eq).
  pose proof (approveRoute_cases (mkApproveRequest (Some approver) (uuid s (uuidReads s)))
                (after_create data s)) as Ha.
  cbn [ap_user ap_id] in Ha. rewrite uuid_in_uuid, Hl in Ha.
  change (run_toolName (created_row data s)) with (te_toolName data) in Ha.
  change (run_arguments (created_row data s)) with (te_arguments data) in Ha.
  destruct (executeTool_returns (te_toolName data) (te_arguments data)
              (world (after_create data s))) as [result Hr].
  { apply (settling_os (world s)); [reflexivity | exact Hs]. }
  destruct (executeTool (te_toolName data) (te_arguments data) (world (after_create data s)))
    as [[result' | e |] w] eqn:Hex; try discriminate.
  injection Hr as ->.
  exists (created_row data s), (after_create data s), result. eexists _, _.
  split; [exact He |]. split; [exact Hl |].
  cbn [created_row new_row run_status run_approvalRequired run_result run_id execute_insert
       ins_status ins_approvalRequired].
  rewrite Hreq. repeat split.
  - exact Ha.
  - now rewrite Hex.
  - unfold after_approve, write_row. cbn [toolRuns]. apply lookup_insert_eq.
  - reflexivity.
  - cbn. now rewrite ?Hreq.
  - reflexivity.
  - reflexivity.
  - rewrite journal_after_approve. cbn [journal with_world].
    rewrite journal_after_create, ?Hreq, <- app_assoc. reflexivity.
Qed.

(** An instance of X15: the DNS lookup filed on the demo server. *)
Lemma gated_run_waits_for_approval_witness :
  ∃ row s1,
    executeRoute gated_dns_request demo_server =
      (Ret (mkResponse 200 (AwaitingApproval row)), s1) ∧
    run_status row = pending ∧ spawnLog (world s1) = spawnLog (world demo_server).
Proof.
  assert ("session-1" ∈ sessions demo_server) as Hin by (vm_compute; set_solver).
  assert (settling (world demo_server)) as Hs by (intros n req events [= <-]; reflexivity).
  destruct (gated_run_waits_for_approval demo_server "user-1" "admin-1"
              (mkToolExecution "dns_lookup" {[ "domain" := JStr "example.com" ]} "session-1"
                 (Some true)) eq_refl Hin eq_refl Hs)
    as (row & s1 & result & s2 & row2 & He & _ & Hst & _ & _ & Hsp & _).
  exists row, s1. exact (conj He (conj Hst Hsp)).
Defined.



(** ** Lookups that find nothing, clients that exit with an error code *)

Lemma executeCommand_close command args options w chunks code later :
  os w (length (spawnLog w))
     (mkSpawnReq command args (js_or (opt_timeout options) (JNum "30000")))
    = Child (chunks ++ Close code :: later) →
  forallb is_data chunks = true →
  (N.of_nat (String.length (stdout_of chunks)) <= maxSize_of options)%N →
  ∃ w', executeCommand command args options w =
          (Ret (mkCmdResult (stdout_of chunks) (stderr_of chunks) (default 0%Z code)), w') ∧
        clock w' = clock w ∧ clockReads w' = clockReads w.
Proof.
  intros Hos Hd Hin. unfold executeCommand. rewrite Hos. unfold run_listeners.
  rewrite fold_left_app, (data_accumulates _ chunks); [| exact Hd | exact Hin].
  cbn [fold_left on_event].
  rewrite (settled_stays _ later _
             (inl (mkCmdResult (stdout_of chunks) (stderr_of chunks) (default 0%Z code))));
    [eauto | now rewrite settle_settled].
Qed.

Lemma recordLines_blank (stdout : string) : blank stdout → recordLines stdout = [].
Proof.
  intros Hb. unfold recordLines, trim. rewrite (trimStart_blank _ Hb). reflexivity.
Qed.

(** X17. A DNS lookup whose client prints nothing but white space and
    ends, with whatever exit code, is a success with an empty list of
    records: a name that does not resolve is not an error.  The record
    type is [A] when the caller gives none. *)
Theorem dns_lookup_without_answer (args : jsobj) (w : World)
    (chunks later : list ChildEvent) (code : option Z) :
  os w (length (spawnLog w))
     (mkSpawnReq "dig" [JStr "+short"; args.["domain"];
                        recordTypeOrA args.["recordType"]]
        (JNum "5000"))
    = Child (chunks ++ Close code :: later) →
  forallb is_data chunks = true →
  (N.of_nat (String.length (stdout_of chunks)) <= 1048576)%N →
  blank (stdout_of chunks) →
  ∃ r d, fst (executeTool "dns_lookup" args w) = Ret r ∧
         success r = true ∧ error r = None ∧ tr_riskLevel r = low ∧
         data r = Some (DDns d) ∧ dns_records d = [] ∧
         dns_domain d = args.["domain"] ∧
         dns_recordType d = recordTypeOrA args.["recordType"].
Proof.
  intros Hos Hd Hin Hb. rewrite executeTool_unfold.
  assert (dispatch "dns_lookup" args (tick w) =
          bind (executeDNSLookup args.["domain"] args.["recordType"])
               (fun result => ret (DDns result, low)) (tick w)) as -> by reflexivity.
  rewrite bind_run. unfold executeDNSLookup. rewrite bind_run.
  fold (recordTypeOrA args.["recordType"]).
  destruct (executeCommand_close "dig"
              [JStr "+short"; args.["domain"];
               recordTypeOrA args.["recordType"]]
              (mkCmdOptions (JNum "5000") None) (tick w) chunks code later Hos Hd Hin)
    as (w1 & -> & _ & _).
  rewrite bind_run. cbn [now]. cbv beta iota. rewrite !ret_run, succeeded_eq. cbn [fst stdout].
  destruct (recordLines_blank (stdout_of chunks) Hb).
  eexists _, _. repeat split.
Qed.

(** An instance of X17: a DNS client that prints nothing. *)
Lemma dns_lookup_without_answer_witness :
  ∃ r d, fst (executeTool "dns_lookup" {[ "domain" := JStr "nowhere.invalid" ]}
                silent_dns_world) = Ret r ∧
         success r = true ∧ data r = Some (DDns d) ∧ dns_records d = [].
Proof.
  destruct (dns_lookup_without_answer {[ "domain" := JStr "nowhere.invalid" ]} silent_dns_world
              [] [] (Some 0%Z) eq_refl eq_refl ltac:(vm_compute; discriminate)
              ltac:(constructor))
    as (r & d & Hr & Hs & _ & _ & Hd & Hn & _).
  exists r, d. exact (conj Hr (conj Hs (conj Hd Hn))).
Defined.

(** X18. The exit code of a client is not looked at: a WHOIS client that
    stays within the output limit and then ends, with whatever exit code,
    gives a successful result of low risk that holds the text it printed. *)
Theorem whois_ignores_exit_code (args : jsobj) (w : World)
    (chunks later : list ChildEvent) (code : option Z) :
  os w (length (spawnLog w)) (mkSpawnReq "whois" [args.["domain"]] (JNum "10000"))
    = Child (chunks ++ Close code :: later) →
  forallb is_data chunks = true →
  (N.of_nat (String.length (stdout_of chunks)) <= 1048576)%N →
  ∃ r, fst (executeTool "whois" args w) = Ret r ∧
       success r = true ∧ error r = None ∧ tr_riskLevel r = low ∧
       data r = Some (DWhois (mkWhoisRecord (stdout_of chunks))).
Proof.
  intros Hos Hd Hin. rewrite executeTool_unfold.
  assert (dispatch "whois" args (tick w) =
          bind (executeWhois args.["domain"]) (fun result => ret (DWhois result, low)) (tick w))
    as -> by reflexivity.
  rewrite bind_run. unfold executeWhois. rewrite bind_run.
  destruct (executeCommand_close "whois" [args.["domain"]] (mkCmdOptions (JNum "10000") None)
              (tick w) chunks code later Hos Hd Hin) as (w1 & -> & _ & _).
  rewrite !ret_run, succeeded_eq. cbn [fst stdout]. eexists. repeat split.
Qed.

(** An instance of X18: a WHOIS client that exits with code 1. *)
Lemma whois_ignores_exit_code_witness :
  ∃ r, fst (executeTool "whois" {[ "domain" := JStr "nowhere.invalid" ]} silent_dns_world) = Ret r ∧
       success r = true ∧
       data r = Some (DWhois (mkWhoisRecord (stdout_of [StdoutData "No match for domain"]))).
Proof.
  destruct (whois_ignores_exit_code {[ "domain" := JStr "nowhere.invalid" ]} silent_dns_world
              [StdoutData "No match for domain"] [] (Some 1%Z) eq_refl eq_refl
              ltac:(vm_compute; discriminate))
    as (r & Hr & Hs & _ & _ & Hd).
  exists r. exact (conj Hr (conj Hs Hd)).
Defined.

(** ** The chat store *)

Import ChatStore.

Lemma mapE_pure {A B} (f : A → thrown + B) (g : A → B) (l : list A) :
  (∀ a, f a = inr (g a)) → mapE f l = inr (map g l).
Proof.
  intros Hf. induction l as [|a l IH]; [reflexivity |]. cbn. now rewrite Hf, IH.
Qed.

Lemma updateCall_gives {R} (result : option R) (tool : ToolCall R) :
  updateCall (ReadGives result) tool = inr (markCall result tool).
Proof.
  unfold updateCall, markCall, is_pending.
  destruct (decide (tc_status tool = call_pending)) as [Hp | Hp].
  - now rewrite bool_decide_eq_true_2.
  - now rewrite bool_decide_eq_false_2.
Qed.

Lemma updateMessage_gives {Meta R} (result : option R) (m : Message Meta R) :
  updateMessage (ReadGives result) m = inr (markMessage result m).
Proof.
  unfold updateMessage, markMessage. destruct (msg_toolCalls m) as [calls |]; [| reflexivity].
  now rewrite (mapE_pure _ _ _ (updateCall_gives result)).
Qed.

(** Calls of which none is pending are read through without a reading of
    the response. *)
Lemma updateCalls_none_pending {R} (response : Reading R) (calls : list (ToolCall R)) :
  existsb is_pending calls = false → mapE (updateCall response) calls = inr calls.
Proof.
  induction calls as [|tool calls IH]; [reflexivity |]. cbn [existsb mapE].
  intros [Hp Hrest]%orb_false_iff. unfold updateCall at 1.
  apply bool_decide_eq_false in Hp.
  destruct (decide (tc_status tool = call_pending)); [contradiction |]. now rewrite IH.
Qed.

Lemma updateCalls_throws {R} (message : string) (calls : list (ToolCall R)) :
  existsb is_pending calls = true →
  mapE (updateCall (ReadThrows message)) calls = inl (ErrorObj message).
Proof.
  induction calls as [|tool calls IH]; [discriminate |]. cbn [existsb mapE].
  unfold updateCall at 1. unfold is_pending at 1.
  destruct (decide (tc_status tool = call_pending)) as [Hp | Hp]; [reflexivity |].
  rewrite bool_decide_eq_false_2 by exact Hp. cbn [orb]. intros H. now rewrite IH.
Qed.

Lemma all_calls_cons {Meta R} (m : Message Meta R) (ms : list (Message Meta R)) :
  all_calls (m :: ms) = default [] (msg_toolCalls m) ++ all_calls ms.
Proof. reflexivity. Qed.

Lemma updateMessages_none_pending {Meta R} (response : Reading R) (ms : list (Message Meta R)) :
  existsb is_pending (all_calls ms) = false → mapE (updateMessage response) ms = inr ms.
Proof.
  induction ms as [|m ms IH]; [reflexivity |].
  rewrite all_calls_cons, existsb_app. intros [Hm Hrest]%orb_false_iff.
  cbn [mapE]. rewrite (IH Hrest). unfold updateMessage.
  destruct m as [id role content createdAt metadata [calls |]]; cbn in *; [| reflexivity].
  now rewrite (updateCalls_none_pending response calls Hm).
Qed.

Lemma updateMessages_throws {Meta R} (message : string) (ms : list (Message Meta R)) :
  existsb is_pending (all_calls ms) = true →
  mapE (updateMessage (ReadThrows message)) ms = inl (ErrorObj message).
Proof.
  induction ms as [|m ms IH]; [discriminate |].
  rewrite all_calls_cons, existsb_app. cbn [mapE]. unfold updateMessage at 1.
  destruct (msg_toolCalls m) as [calls |]; cbn [default from_option id].
  - destruct (existsb is_pending calls) eqn:Hm.
    + intros _. now rewrite (updateCalls_throws message calls Hm).
    + rewrite (updateCalls_none_pending _ calls Hm). cbn [orb]. intros H. now rewrite IH.
  - cbn [existsb orb]. intros H. now rewrite IH.
Qed.

Lemma all_calls_marked {Meta R} (result : option R) (ms : list (Message Meta R)) :
  all_calls (map (markMessage result) ms) = map (markCall result) (all_calls ms).
Proof.
  unfold all_calls. induction ms as [|m ms IH]; [reflexivity |].
  cbn [map concat]. rewrite map_app, IH. f_equal.
  unfold markMessage. destruct (msg_toolCalls m) eqn:Hc; cbn; rewrite ?Hc; reflexivity.
Qed.

Lemma markCall_marks {R} (result : option R) (tool : ToolCall R) :
  call_marked result tool (markCall result tool) ∧ is_pending (markCall result tool) = false.
Proof.
  unfold call_marked, markCall, is_pending.
  destruct (decide (tc_status tool = call_pending)) as [Hp | Hp].
  - rewrite bool_decide_eq_true_2 by exact Hp. cbn. auto 10.
  - rewrite bool_decide_eq_false_2 by exact Hp. split; [reflexivity |].
    now apply bool_decide_eq_false_2.
Qed.

Lemma marked_none_pending {Meta R} (result : option R) (ms : list (Message Meta R)) :
  existsb is_pending (all_calls (map (markMessage result) ms)) = false.
Proof.
  rewrite all_calls_marked.
  induction (all_calls ms) as [|tool calls IH]; [reflexivity |].
  cbn [map existsb]. now rewrite (proj2 (markCall_marks result tool)), IH.
Qed.

Lemma some_pending {R} (calls : list (ToolCall R)) :
  Exists (fun tool => tc_status tool = call_pending) calls → existsb is_pending calls = true.
Proof.
  intros (tool & Hin & Hp)%Exists_exists. apply existsb_exists. exists tool.
  split; [now apply list_elem_of_In | now apply bool_decide_eq_true_2].
Qed.

Lemma none_pending {R} (calls : list (ToolCall R)) :
  Forall (fun tool => tc_status tool ≠ call_pending) calls → existsb is_pending calls = false.
Proof.
  intros Hf. induction Hf as [|tool calls Hp _ IH]; [reflexivity |].
  cbn [existsb]. unfold is_pending at 1. now rewrite bool_decide_eq_false_2, IH.
Qed.

(** An approval leaves messages without a pending call as they are,
    however the request ends. *)
Lemma approve_none_pending {Meta R Plan} toolRunId (post : string → thrown + Reading R)
    (state : ChatState Meta R Plan) :
  existsb is_pending (all_calls (messages state)) = false →
  messages (snd (approveToolExecution toolRunId post state)) = messages state.
Proof.
  intros Hn. unfold approveToolExecution. destruct (post _) as [err | response]; [reflexivity |].
  cbn [messages]. now rewrite (updateMessages_none_pending response _ Hn).
Qed.

(** X19. Approval in the chat store.  Whatever happens the store is no
    longer loading and the session and the plan stay.  When the request
    fails, the action throws the error, records its message and leaves
    the messages as they were.  When the request returns a value whose
    [data.result] can be read, every pending tool call of every message,
    not only the one of the run approved, becomes executed with that
    result, no call is left pending, the other calls and the messages
    themselves stay, and a second approval then changes no message.  When
    reading [data.result] throws, the action throws that error and leaves
    the messages as they were if some call is pending, and returns having
    changed nothing if none is. *)
Theorem approveToolExecution_outcome {Meta R Plan : Type}
    (toolRunId : string) (post : string → thrown + Reading R) (state : ChatState Meta R Plan) :
  isLoading (snd (approveToolExecution toolRunId post state)) = false ∧
  currentSessionId (snd (approveToolExecution toolRunId post state)) = currentSessionId state ∧
  currentPlan (snd (approveToolExecution toolRunId post state)) = currentPlan state ∧
  (∀ err, post ("/api/protected/tools/" +:+ toolRunId +:+ "/approve") = inl err →
     fst (approveToolExecution toolRunId post state) = Some err ∧
     messages (snd (approveToolExecution toolRunId post state)) = messages state ∧
     error (snd (approveToolExecution toolRunId post state)) =
       Some (message_or "Failed to approve tool execution" err)) ∧
  (∀ result,
     post ("/api/protected/tools/" +:+ toolRunId +:+ "/approve") = inr (ReadGives result) →
     fst (approveToolExecution toolRunId post state) = None ∧
     error (snd (approveToolExecution toolRunId post state)) = None ∧
     map msg_id (messages (snd (approveToolExecution toolRunId post state))) =
       map msg_id (messages state) ∧
     Forall2 (call_marked result) (all_calls (messages state))
       (all_calls (messages (snd (approveToolExecution toolRunId post state)))) ∧
     Forall (fun tool => tc_status tool ≠ call_pending)
       (all_calls (messages (snd (approveToolExecution toolRunId post state)))) ∧
     ∀ toolRunId' post',
       messages (snd (approveToolExecution toolRunId' post'
                        (snd (approveToolExecution toolRunId post state)))) =
       messages (snd (approveToolExecution toolRunId post state))) ∧
  (∀ message,
     post ("/api/protected/tools/" +:+ toolRunId +:+ "/approve") = inr (ReadThrows message) →
     messages (snd (approveToolExecution toolRunId post state)) = messages state ∧
     (Exists (fun tool => tc_status tool = call_pending) (all_calls (messages state)) →
        fst (approveToolExecution toolRunId post state) = Some (ErrorObj message) ∧
        error (snd (approveToolExecution toolRunId post state)) = Some message) ∧
     (Forall (fun tool => tc_status tool ≠ call_pending) (all_calls (messages state)) →
        fst (approveToolExecution toolRunId post state) = None ∧
        error (snd (approveToolExecution toolRunId post state)) = None)).
Proof.
  unfold approveToolExecution.
  destruct (post ("/api/protected/tools/" +:+ toolRunId +:+ "/approve"))
    as [err | [message | result]];
    cbn [fst snd isLoading currentSessionId currentPlan messages error].
  - split; [reflexivity |]. split; [reflexivity |]. split; [reflexivity |].
    split; [| split; discriminate]. intros ? [= <-]. auto.
  - destruct (existsb is_pending (all_calls (messages state))) eqn:Hp.
    + rewrite (updateMessages_throws message _ Hp).
      cbn [fst snd isLoading currentSessionId currentPlan messages error message_or].
      split; [reflexivity |]. split; [reflexivity |]. split; [reflexivity |].
      split; [discriminate |]. split; [discriminate |]. intros ? [= <-].
      split; [reflexivity |]. split; [auto |].
      intros Hf. apply none_pending in Hf. congruence.
    + rewrite (updateMessages_none_pending (ReadThrows message) _ Hp).
      cbn [fst snd isLoading currentSessionId currentPlan messages error].
      split; [reflexivity |]. split; [reflexivity |]. split; [reflexivity |].
      split; [discriminate |]. split; [discriminate |]. intros ? [= <-].
      split; [reflexivity |]. split; [| auto].
      intros He. apply some_pending in He. congruence.
  - rewrite (mapE_pure _ _ _ (updateMessage_gives result)).
    cbn [fst snd isLoading currentSessionId currentPlan messages error].
    split; [reflexivity |]. split; [reflexivity |]. split; [reflexivity |].
    split; [discriminate |]. split; [| discriminate]. intros ? [= <-].
    split; [reflexivity |]. split; [reflexivity |]. split; [| split; [| split]].
    + rewrite map_map. apply map_ext. intros m.
      unfold markMessage. now destruct (msg_toolCalls m).
    + rewrite all_calls_marked.
      induction (all_calls (messages state)) as [|tool calls IH]; cbn; constructor; auto.
      apply markCall_marks.
    + rewrite all_calls_marked. apply Forall_forall.
      intros tool (old & -> & _)%list_elem_of_fmap Hp.
      pose proof (proj2 (markCall_marks result old)) as Hn.
      apply bool_decide_eq_false in Hn. contradiction.
    + intros toolRunId' post'.
      apply (approve_none_pending toolRunId' post'
               (mkChatState (map (markMessage result) (messages state)) (currentSessionId state)
                  (currentPlan state) false None)).
      apply marked_none_pending.
Qed.

(** An instance of X19: on the demo chat, which shows a pending call, an
    approval whose response has no [data] throws and marks nothing. *)
Lemma approveToolExecution_outcome_witness :
  fst (approveToolExecution run_0
         (fun _ => inr (ReadThrows "Cannot read properties of undefined (reading 'result')"))
         demo_chat) =
    Some (ErrorObj "Cannot read properties of undefined (reading 'result')") ∧
  messages (snd (approveToolExecution run_0
                   (fun _ => inr (ReadThrows
                                    "Cannot read properties of undefined (reading 'result')"))
                   demo_chat)) = messages demo_chat.
Proof.
  destruct (proj2 (proj2 (proj2 (proj2 (proj2
              (approveToolExecution_outcome run_0
                 (fun _ => inr (ReadThrows
                                  "Cannot read properties of undefined (reading 'result')"))
                 demo_chat)))))
              "Cannot read properties of undefined (reading 'result')" eq_refl)
    as (Hm & Hthrow & _).
  split; [| exact Hm]. apply Hthrow. apply List.Exists_cons_hd. reflexivity.
Defined.

(** X23. The chat store behind the approve route.  No body the route
    sends has a [data] property, so behind that route an approval never
    changes a message, whatever the route answers: no call is ever marked
    as executed.  When the route answers with success, having run the
    tool, and the chat shows a pending call, the action throws the
    [TypeError] of the reading and records it as the error. *)
Theorem approval_behind_the_route_marks_nothing {Meta Plan : Type}
    (toolRunId : string) (post : string → thrown + Reading ToolResult)
    (state : ChatState Meta ToolResult Plan) (typeError : string)
    (errorText : Response → string) (answer : Response) :
  post ("/api/protected/tools/" +:+ toolRunId +:+ "/approve") =
    post_approve typeError errorText answer →
  messages (snd (approveToolExecution toolRunId post state)) = messages state ∧
  (res_status answer = 200 →
   Exists (fun tool => tc_status tool = call_pending) (all_calls (messages state)) →
   fst (approveToolExecution toolRunId post state) = Some (ErrorObj typeError) ∧
   error (snd (approveToolExecution toolRunId post state)) = Some typeError).
Proof.
  intros Hpost. unfold approveToolExecution. rewrite Hpost. unfold post_approve.
  destruct ((200 <=? res_status answer)%nat && (res_status answer <=? 299)%nat) eqn:Hok.
  - cbn [messages].
    destruct (existsb is_pending (all_calls (messages state))) eqn:Hp.
    + rewrite (updateMessages_throws typeError _ Hp). split; [reflexivity |]. split; reflexivity.
    + rewrite (updateMessages_none_pending (ReadThrows typeError) _ Hp).
      split; [reflexivity |]. intros _ He. apply some_pending in He. congruence.
  - split; [reflexivity |]. intros Hst. now rewrite Hst in Hok.
Qed.

(** An instance of X23: the approval of the completed WHOIS run, which
    the route answers with success, seen from a chat that shows a pending
    call. *)
Lemma approval_behind_the_route_marks_nothing_witness :
  res_status demo_answer = 200 ∧
  messages (snd (approveToolExecution run_0
                   (fun _ => post_approve "Cannot read properties of undefined"
                               (fun _ => "") demo_answer)
                   pending_chat)) = messages pending_chat ∧
  fst (approveToolExecution run_0
         (fun _ => post_approve "Cannot read properties of undefined" (fun _ => "") demo_answer)
         pending_chat) = Some (ErrorObj "Cannot read properties of undefined").
Proof.
  assert (res_status demo_answer = 200) as Hok by (vm_compute; reflexivity).
  destruct (approval_behind_the_route_marks_nothing run_0
              (fun _ => post_approve "Cannot read properties of undefined" (fun _ => "")
                          demo_answer)
              pending_chat "Cannot read properties of undefined" (fun _ => "") demo_answer
              eq_refl) as [Hm Hthrow].
  split; [exact Hok |]. split; [exact Hm |].
  apply Hthrow; [exact Hok |]. apply List.Exists_cons_hd. reflexivity.
Defined.

(** ** A scan that is let through *)

Lemma js_or_twice (a b : jsval) : js_or (js_or a b) b = js_or a b.
Proof. unfold js_or. destruct (truthy a) eqn:Ha; [now rewrite Ha | now destruct (truthy b)]. Qed.

(** X20. A scan of a target the guard accepts starts the scanner once,
    with the argument list of [buildNmapArgs] and the caller's timeout, or
    30000 when the caller gives none or gives 0.  When the scanner stays
    within a megabyte of output and ends, with whatever exit code, the
    result is a success whose risk is the one [assessNmapRisk] gives and
    whose report is read from the text the scanner printed. *)
Theorem allowed_scan_runs_scanner (args : jsobj) (w : World)
    (chunks later : list ChildEvent) (code : option Z) :
  isTargetAllowed args.["target"] = true →
  os w (length (spawnLog w))
     (mkSpawnReq "nmap" (buildNmapArgs args) (js_or args.["timeout"] (JNum "30000")))
    = Child (chunks ++ Close code :: later) →
  forallb is_data chunks = true →
  (N.of_nat (String.length (stdout_of chunks)) <= 1048576)%N →
  spawnLog (snd (executeTool "nmap" args w)) =
    spawnLog w ++
    [mkSpawnReq "nmap" (buildNmapArgs args) (js_or args.["timeout"] (JNum "30000"))] ∧
  ∃ r report, fst (executeTool "nmap" args w) = Ret r ∧
              success r = true ∧ ToolsService.error r = None ∧
              tr_riskLevel r = assessNmapRisk args ∧
              data r = Some (DNmap report) ∧ nmap_xmlOutput report = stdout_of chunks.
Proof.
  intros Hok Hos Hd Hin. rewrite executeTool_unfold.
  assert (dispatch "nmap" args (tick w) =
          bind (executeNmap args) (fun result => ret (DNmap result, assessNmapRisk args)) (tick w))
    as -> by reflexivity.
  rewrite bind_run. unfold executeNmap. rewrite Hok. cbn [negb]. rewrite bind_run.
  rewrite <- (js_or_twice args.["timeout"] (JNum "30000")) in Hos.
  pose proof (executeCommand_spawns_once "nmap" (buildNmapArgs args)
                (mkCmdOptions (js_or args.["timeout"] (JNum "30000")) (Some 1048576%N)) (tick w))
    as Hsp.
  destruct (executeCommand_close "nmap" (buildNmapArgs args)
              (mkCmdOptions (js_or args.["timeout"] (JNum "30000")) (Some 1048576%N))
              (tick w) chunks code later Hos Hd Hin) as (w1 & He & _ & _).
  rewrite He in Hsp |- *. cbn [snd opt_timeout] in Hsp. rewrite js_or_twice in Hsp.
  unfold parseNmapOutput. rewrite bind_run. cbn [now]. cbv beta iota.
  rewrite !ret_run, succeeded_eq. cbn [fst snd stdout tick spawnLog].
  split; [exact Hsp |]. eexists _, _. repeat split.
Qed.

(** An instance of X20: a TCP scan of a private address in the demo world. *)
Lemma allowed_scan_runs_scanner_witness :
  spawnLog (snd (executeTool "nmap" {[ "target" := JStr "192.168.1.10"; "scanType" := JStr "tcp" ]}
                   demo_world)) =
    spawnLog demo_world ++
    [mkSpawnReq "nmap"
       (buildNmapArgs {[ "target" := JStr "192.168.1.10"; "scanType" := JStr "tcp" ]})
       (js_or ({[ "target" := JStr "192.168.1.10"; "scanType" := JStr "tcp" ]} : jsobj).["timeout"]
          (JNum "30000"))].
Proof.
  exact (proj1 (allowed_scan_runs_scanner
                  {[ "target" := JStr "192.168.1.10"; "scanType" := JStr "tcp" ]} demo_world
                  [StdoutData "93.184.216.34"] [] (Some 0%Z) eq_refl eq_refl eq_refl
                  ltac:(vm_compute; discriminate))).
Defined.

(** ** The authentication middleware *)

Import Auth.

(** X21. The middleware lets a request through only with a header that
    starts with [Bearer ], a token behind it that verifies, a [userId] in
    its payload and a user stored under that id, and the user it sets is
    that one; every other request is answered with status 401. *)
Theorem authMiddleware_lets_verified_users_through {User : Type}
    (authorization : option string) (verify : string → thrown + jsobj)
    (getUser : jsval → thrown + option User) :
  (∀ user,
     authMiddleware authorization verify getUser = Next user ↔
     ∃ authHeader decoded,
       authorization = Some authHeader ∧ String.prefix "Bearer " authHeader = true ∧
       verify (String.substring 7 (String.length authHeader - 7) authHeader) = inr decoded ∧
       truthy decoded.["userId"] = true ∧ getUser decoded.["userId"] = inr (Some user)) ∧
  (∀ status message,
     authMiddleware authorization verify getUser = Answered status message → status = 401).
Proof.
  unfold authMiddleware. split.
  - intros user. split.
    + destruct authorization as [authHeader |]; [| discriminate].
      destruct (String.prefix "Bearer " authHeader) eqn:Hp; cbn [negb]; [| discriminate].
      destruct (verify _) as [e | decoded] eqn:Hv; [discriminate |].
      destruct (truthy decoded.["userId"]) eqn:Ht; cbn [negb]; [| discriminate].
      destruct (getUser _) as [e | [user' |]] eqn:Hg; try discriminate.
      intros [= <-]. eauto 10.
    + intros (authHeader & decoded & -> & Hp & Hv & Ht & Hg).
      now rewrite Hp, Hv, Ht, Hg.
  - intros status message.
    destruct authorization as [authHeader |]; [| now intros [= <- _]].
    destruct (String.prefix "Bearer " authHeader); cbn [negb]; [| now intros [= <- _]].
    destruct (verify _) as [e | decoded]; [now intros [= <- _] |].
    destruct (truthy decoded.["userId"]); cbn [negb]; [| now intros [= <- _]].
    destruct (getUser _) as [e | [user' |]]; first [now intros [= <- _] | discriminate].
Qed.

(** An instance of X21: a header with a token that verifies for a stored
    user. *)
Lemma authMiddleware_lets_verified_users_through_witness :
  authMiddleware (Some "Bearer abc")
    (fun token => if decide (token = "abc") then inr ({[ "userId" := JStr "u1" ]} : jsobj)
                  else inl (ErrorObj "jwt malformed"))
    (fun id => inr (if decide (id = JStr "u1") then Some "alice" else None))
  = Next "alice".
Proof.
  apply (proj1 (authMiddleware_lets_verified_users_through (Some "Bearer abc") _ _) "alice").
  exists "Bearer abc", ({[ "userId" := JStr "u1" ]} : jsobj). repeat split.
Defined.

(** ** The guard on IPv4 literals *)

(** X22. On dotted quads the guard does what it is meant to do: the
    literal a.b.c.d, written in decimal without leading zeros, is accepted
    exactly when it is 127.0.0.1 or lies in 10.0.0.0/8, 172.16.0.0/12 or
    192.168.0.0/16, so that no public address written this way is ever
    accepted. *)
Theorem dotted_quads_follow_private_ranges (a b c d : nat) :
  (a < 256)%nat → (b < 256)%nat → (c < 256)%nat → (d < 256)%nat →
  isTargetAllowed (JStr (ipv4 a b c d)) = true ↔ in_allowed_ranges a b c d.
Proof.
  intros Ha Hb Hc Hd. unfold ipv4, in_allowed_ranges.
  destruct ((a =? 127)%nat && (b =? 0)%nat) eqn:Hlo.
  - apply andb_true_iff in Hlo as [->%Nat.eqb_eq ->%Nat.eqb_eq].
    rewrite guard_on_loopback.
    pose proof (forall_below _ _ (forall_below _ _ last_octets_of_loopback c Hc) d Hd) as H.
    cbv beta in H. apply eqb_prop in H. rewrite H, andb_true_iff, !Nat.eqb_eq. lia.
  - pose proof (forall_below _ _
      (forall_below _ _ (guard_on_prefix (octet c +:+ "." +:+ octet d)) a Ha) b Hb) as H.
    cbv beta in H. rewrite Hlo in H. cbn [implb negb] in H. apply eqb_prop in H. rewrite H.
    unfold in_private_range.
    rewrite !orb_true_iff, !andb_true_iff, !Nat.eqb_eq, !Nat.leb_le.
    apply andb_false_iff in Hlo as [Hn%Nat.eqb_neq | Hn%Nat.eqb_neq]; lia.
Qed.

(** An instance of X22: a literal of 192.168.0.0/16 and a public one. *)
Lemma dotted_quads_follow_private_ranges_witness :
  (isTargetAllowed (JStr (ipv4 192 168 1 10)) = true ↔ in_allowed_ranges 192 168 1 10) ∧
  (isTargetAllowed (JStr (ipv4 8 8 8 8)) = true ↔ in_allowed_ranges 8 8 8 8).
Proof.
  split.
  - apply (dotted_quads_follow_private_ranges 192 168 1 10); lia.
  - apply (dotted_quads_follow_private_ranges 8 8 8 8); lia.
Defined.
